(** * Chatbot: a shallow embedding of [rr.py] and [frontend.py]

    [rr.py] declares three tools, the model node, the checkpointer and the
    conversation graph; [frontend.py] derives thread names and reads a
    thread's history back.  Python code that can raise lives in the
    exception monad [res]; code that also prints or touches the checkpoint
    database lives in [M], which threads a [world] through [res].

    Text that the program only compares and concatenates (operation names,
    message contents, error texts) is a [string]; text that it inspects
    character by character ([generate_thread_name]) is a list of Unicode
    code points, as [len], slicing, [strip] and [split] see it. *)

From stdpp Require Import gmap strings list.
From Stdlib Require Import Floats.PrimFloat.

Open Scope string_scope.

(** ** Python exceptions *)

(** The classes the handlers tell apart.  Every class here derives from
    [Exception]; [RequestException] stands for [requests.RequestException]
    and its subclasses (connection errors, timeouts, HTTP errors). *)
Inductive exn_class :=
| RequestException
| ZeroDivisionError
| ValueError
| GraphRecursionError
| OtherException.

Record exn := Exn { exn_cls : exn_class; exn_str : string }.

Inductive res (A : Type) :=
| Ret (a : A)
| Raise (e : exn).
Arguments Ret {A} a.
Arguments Raise {A} e.

Global Instance res_ret : MRet res := @Ret.
Global Instance res_bind : MBind res := fun A B f m =>
  match m with
  | Ret a => f a
  | Raise e => Raise e
  end.

(** [try: body  except Exception as e: handler(e)] *)
Definition try_except {A} (body : res A) (handler : exn -> res A) : res A :=
  match body with
  | Ret a => Ret a
  | Raise e => handler e
  end.

Definition is_RequestException (e : exn) : bool :=
  match exn_cls e with
  | RequestException => true
  | _ => false
  end.

(** ** Python values that the tools return *)

Inductive value :=
| VFloat (f : float)
| VStr (s : string).

(** A [dict] with string keys. *)
Abbreviation dict := (gmap string value).

(** ** 2. Tools *)

(** [x / y] on Python floats raises on a zero divisor (either sign);
    [+], [-] and [*] never raise, they round to infinities or NaN. *)
Definition truediv (x y : float) : res float :=
  if PrimFloat.eqb y 0%float
  then Raise (Exn ZeroDivisionError "float division by zero")
  else Ret (PrimFloat.div x y).

Definition calculator_success (first_num second_num : float)
    (operation : string) (result : float) : dict :=
  <["first_num" := VFloat first_num]>
    (<["second_num" := VFloat second_num]>
       (<["operation" := VStr operation]>
          (<["result" := VFloat result]> ∅))).

Definition calculator (first_num second_num : float) (operation : string)
    : res dict :=
  try_except
    (if String.eqb operation "add" then
       Ret (calculator_success first_num second_num operation
              (PrimFloat.add first_num second_num))
     else if String.eqb operation "sub" then
       Ret (calculator_success first_num second_num operation
              (PrimFloat.sub first_num second_num))
     else if String.eqb operation "mul" then
       Ret (calculator_success first_num second_num operation
              (PrimFloat.mul first_num second_num))
     else if String.eqb operation "div" then
       if PrimFloat.eqb second_num 0%float then
         Ret {["error" := VStr "Division by zero is not allowed"]}
       else
         result ← truediv first_num second_num;
         Ret (calculator_success first_num second_num operation result)
     else
       Ret {["error" := VStr ("Unsupported operation '" ++ operation ++ "'")]})
    (fun e => Ret {["error" := VStr (exn_str e)]}).

(** "Supported operations: add, sub, mul, div" *)
Definition supported (operation : string) : Prop :=
  operation = "add" \/ operation = "sub" \/ operation = "mul"
  \/ operation = "div".

(** What [requests.get] hands back. *)
Record response := Response { status_code : Z; text : string }.

Section tools.
(** The outside world of the tools: the web search, the HTTP client and
    the JSON decoder.  Each either returns or raises. *)

(** [DuckDuckGoSearchRun(region=...)] builds the search tool object; its
    validator imports the search package and raises when it cannot. *)
Variable search_tool_t : Type.
Variable DuckDuckGoSearchRun : string -> res search_tool_t.
Variable run : search_tool_t -> string -> res string.
Variable requests_get : string -> Z -> res response.
Variable raise_for_status : response -> res unit.
Variable json : Type.
Variable response_json : response -> res json.

(** The tool object is built before the [try]: what building it raises is
    not handled here. *)
Definition brave_search (query : string) : res string :=
  search_tool ← DuckDuckGoSearchRun "us-en";
  try_except
    (result ← run search_tool query;
     Ret result)
    (fun e => Ret ("Search failed: " ++ exn_str e)).

(** Returns the decoded quote ([inl]) or an error [dict] ([inr]).  The
    two handlers are tried in order: [requests.RequestException] first,
    then [Exception]. *)
Definition get_stock_price (symbol : string) : res (json + dict) :=
  try_except
    (let url :=
       "https://www.alphavantage.co/query?function=GLOBAL_QUOTE&symbol="
       ++ symbol ++ "&apikey=02N8BQIZNVL0B3RU" in
     response ← requests_get url 10;
     _ ← raise_for_status response;
     quote ← response_json response;
     Ret (inl quote))
    (fun e =>
       if is_RequestException e then
         Ret (inr {["error" := VStr ("API request failed: " ++ exn_str e)]})
       else
         Ret (inr {["error" := VStr ("Unexpected error: " ++ exn_str e)]})).
End tools.

(** ** 3. State *)

Record tool_call := ToolCall {
  tc_name : string;
  tc_args : dict;
  tc_id : string
}.

Inductive message :=
| HumanMessage (content : string)
| AIMessage (content : string) (tool_calls : list tool_call)
| ToolMessage (content : string) (name : string) (tool_call_id : string).

(** [getattr(m, "tool_calls", [])]: only assistant messages carry any. *)
Definition tool_calls_of (m : message) : list tool_call :=
  match m with
  | AIMessage _ tcs => tcs
  | _ => []
  end.

(** The [add_messages] reducer of [ChatState.messages].  Messages get
    fresh identifiers from the model client and from the reducer, so an
    update is appended to what is there. *)
Definition add_messages (left right : list message) : list message :=
  left ++ right.

(** ** The process and what it can touch

    [stdout] collects what [print] wrote; [db] is the checkpoint table of
    [chatbot.db]: for each thread that has a checkpoint, the channel values
    of its latest one, keyed by channel name. *)
Abbreviation channels := (gmap string (list message)).

Record world := World {
  stdout : list string;
  db : gmap string channels
}.

Definition M (A : Type) : Type := world -> res A * world.

Global Instance M_ret : MRet M := fun A a w => (Ret a, w).
Global Instance M_bind : MBind M := fun A B f m w =>
  match m w with
  | (Ret a, w') => f a w'
  | (Raise e, w') => (Raise e, w')
  end.

Definition lift {A} (r : res A) : M A := fun w => (r, w).

Definition raise {A} (e : exn) : M A := fun w => (Raise e, w).

Definition try_exceptM {A} (body : M A) (handler : exn -> M A) : M A :=
  fun w =>
    match body w with
    | (Ret a, w') => (Ret a, w')
    | (Raise e, w') => handler e w'
    end.

Definition print (line : string) : M unit :=
  fun w => (Ret tt, World (stdout w ++ [line]) (db w)).

(** ** 5. Checkpointer *)

Record connection := Connection { database : string }.

Record saver := SqliteSaver { conn : connection }.

(** [SqliteSaver.put]: the thread's latest checkpoint becomes [values].
    The write is the one of a store that works. *)
Definition put (checkpointer : saver) (thread_id : string) (values : channels)
    : M unit :=
  fun w => (Ret tt, World (stdout w) (<[thread_id := values]> (db w))).

(** [SqliteSaver.get_tuple]: the thread's latest checkpoint, if it has one.
    The read is the one of a store that works. *)
Definition get_tuple (checkpointer : saver) (thread_id : string)
    : M (option channels) :=
  fun w => (Ret (db w !! thread_id), w).

(** [SqliteSaver.list(None)] of a store that works and keeps one row per
    thread, reduced to what the caller reads of each checkpoint:
    [checkpoint.config["configurable"]["thread_id"]].  What the function
    does for any listing, failed or with repeated threads, is
    [retrieve_all_threads_via] below. *)
Definition list_thread_ids (checkpointer : saver) : M (list string) :=
  fun w => (Ret (map fst (map_to_list (db w))), w).


(** ** 4. Nodes and 6. Graph *)

Inductive node := START | CHAT_NODE | TOOLS | END.

Global Instance node_eq_dec : EqDecision node.
Proof. solve_decision. Defined.

(** A compiled graph remembers the checkpointer it was compiled with. *)
Record compiled_graph := Compiled { checkpointer : option saver }.

Definition compile (checkpointer : option saver) : compiled_graph :=
  Compiled checkpointer.

(** [if checkpointer: graph.compile(checkpointer=checkpointer)
     else: graph.compile()] *)
Definition make_chatbot (checkpointer : option saver) : compiled_graph :=
  match checkpointer with
  | Some c => compile (Some c)
  | None => compile None
  end.

Section checkpointer.
(** [sqlite3.connect]: returns a connection or raises. *)
Variable sqlite3_connect : string -> res connection.

Definition init_checkpointer : M (option saver) :=
  try_exceptM
    (conn ← lift (sqlite3_connect "chatbot.db");
     mret (Some (SqliteSaver conn)))
    (fun e =>
       _ ← print ("Warning: Could not initialize checkpointer: "
                   ++ exn_str e);
       mret None).

(** What importing [rr] leaves behind: the module's [checkpointer] and
    [chatbot]. *)
Definition import_rr : M (option saver * compiled_graph) :=
  checkpointer ← init_checkpointer;
  mret (checkpointer, make_chatbot checkpointer).
End checkpointer.

(** Default [recursion_limit] of a run: the number of node executions after
    which the run is stopped with [GraphRecursionError]. *)
Definition recursion_limit : nat := 25.

Section graph.
(** [llm_with_tools.invoke]: the model's reply to a history, or the
    exception the client raised.  A history only grows during a run, so a
    function of the history can produce any sequence of replies. *)
Variable llm_with_tools_invoke : list message -> res message.

(** What [ToolNode] puts in the [ToolMessage] for one call: the matching
    tool's output, or the description of what went wrong. *)
Variable execute : tool_call -> string.

Definition chat_node (messages : list message) : M (list message) :=
  try_exceptM
    (response ← lift (llm_with_tools_invoke messages);
     mret [response])
    (fun e =>
       let error_msg := "Error in chat_node: " ++ exn_str e in
       _ ← print error_msg;
       mret [AIMessage
               ("I apologize, but I encountered an error: " ++ error_msg)
               []]).

Definition tool_message (call : tool_call) : message :=
  ToolMessage (execute call) (tc_name call) (tc_id call).

(** [ToolNode(tools)]: one [ToolMessage] per call of the last message, in
    the order of the calls. *)
Definition tool_node (messages : list message) : M (list message) :=
  match last messages with
  | None => raise (Exn ValueError "No message found in input")
  | Some (AIMessage _ calls) => mret (map tool_message calls)
  | Some _ => raise (Exn ValueError "Last message is not an AIMessage")
  end.

(** [langgraph.prebuilt.tools_condition]: route on the last message. *)
Definition tools_condition (messages : list message) : M node :=
  match last messages with
  | None =>
      raise (Exn ValueError "No messages found in input state to tool_edge")
  | Some ai_message =>
      match tool_calls_of ai_message with
      | [] => mret END
      | _ :: _ => mret TOOLS
      end
  end.

(** [graph.add_node]: what each node runs. *)
Definition node_action (n : node) (messages : list message)
    : M (list message) :=
  match n with
  | CHAT_NODE => chat_node messages
  | TOOLS => tool_node messages
  | START | END => mret []
  end.

(** [graph.add_edge] and [graph.add_conditional_edges]: where control
    goes after a node has run. *)
Definition edge (n : node) (messages : list message) : M node :=
  match n with
  | START => mret CHAT_NODE
  | CHAT_NODE => tools_condition messages
  | TOOLS => mret CHAT_NODE
  | END => mret END
  end.

Definition save (g : compiled_graph) (thread_id : string)
    (messages : list message) : M unit :=
  match checkpointer g with
  | Some c => put c thread_id {["messages" := messages]}
  | None => mret tt
  end.

(** One step of the compiled graph: run the node, merge its update into
    the state with the reducer, checkpoint, follow the edge. *)
Definition superstep (g : compiled_graph) (thread_id : string)
    (n : node) (messages : list message) : M (node * list message) :=
  update ← node_action n messages;
  let messages := add_messages messages update in
  _ ← save g thread_id messages;
  next ← edge n messages;
  mret (next, messages).

Fixpoint run_from (limit : nat) (g : compiled_graph) (thread_id : string)
    (n : node) (messages : list message) : M (list message) :=
  match n with
  | END => mret messages
  | _ =>
      match limit with
      | 0 => raise (Exn GraphRecursionError
                      "Recursion limit reached without hitting a stop condition")
      | S limit =>
          '(next, messages) ← superstep g thread_id n messages;
          run_from limit g thread_id next messages
      end
  end.

(** [chatbot.stream(input, config)], to the state it ends in: the input is
    merged into what the thread's checkpoint holds (nothing, without a
    checkpointer) and the graph runs from [START]. *)
Definition stream (g : compiled_graph) (input : list message)
    (thread_id : string) : M (list message) :=
  saved ← match checkpointer g with
          | Some c => get_tuple c thread_id
          | None => mret None
          end;
  let prior := default [] (default ∅ saved !! "messages") in
  let messages := add_messages prior input in
  _ ← save g thread_id messages;
  next ← edge START messages;
  run_from recursion_limit g thread_id next messages.
End graph.

Arguments run_from : simpl never.

(** A model client for the examples: it asks for the calculator once, then
    answers from the tool's result. *)
Definition example_llm (messages : list message) : res message :=
  match last messages with
  | Some (HumanMessage _) =>
      Ret (AIMessage "" [ToolCall "calculator" ∅ "call_1"])
  | Some (ToolMessage result _ _) => Ret (AIMessage ("It is " ++ result) [])
  | _ => Ret (AIMessage "" [])
  end.

(** What [chat_node] answers when the model client raised [e]. *)
Definition apology (e : exn) : message :=
  AIMessage
    ("I apologize, but I encountered an error: Error in chat_node: "
     ++ exn_str e) [].

(** What a run of [g] on a thread starts from, before the input is merged
    in: the messages of the thread's checkpoint, if [g] has a checkpointer
    and the thread a checkpoint. *)
Definition saved_messages (g : compiled_graph) (thread_id : string)
    (w : world) : list message :=
  match checkpointer g with
  | Some _ => default [] (default ∅ (db w !! thread_id) !! "messages")
  | None => []
  end.

(** [StateSnapshot], reduced to its [values]. *)
Record StateSnapshot := { values : channels }.

(** [chatbot.get_state(config)] *)
Definition get_state (g : compiled_graph) (thread_id : string)
    : M StateSnapshot :=
  match checkpointer g with
  | None => raise (Exn ValueError "No checkpointer set")
  | Some c =>
      saved ← get_tuple c thread_id;
      mret {| values := default ∅ saved |}
  end.

(** ** 7. Helper functions *)

Definition retrieve_all_threads (checkpointer : option saver)
    : M (list string) :=
  match checkpointer with
  | None => mret []
  | Some c =>
      try_exceptM
        (ids ← list_thread_ids c;
         let all_threads : gset string := list_to_set ids in
         mret (elements all_threads))
        (fun e =>
           _ ← print ("Error retrieving threads: " ++ exn_str e);
           mret [])
  end.

(** [retrieve_all_threads] over any [checkpointer.list(None)]: [list_rows]
    gives the thread identifier of every checkpoint row, one per row and so
    with repetitions, or raises. *)
Definition retrieve_all_threads_via (list_rows : saver -> M (list string))
    (checkpointer : option saver) : M (list string) :=
  match checkpointer with
  | None => mret []
  | Some c =>
      try_exceptM
        (rows ← list_rows c;
         let all_threads : gset string := list_to_set rows in
         mret (elements all_threads))
        (fun e =>
           _ ← print ("Error retrieving threads: " ++ exn_str e);
           mret [])
  end.

(** ** frontend.py *)

Definition load_conversation (chatbot : compiled_graph) (thread_id : string)
    : M (list message) :=
  state ← get_state chatbot thread_id;
  mret (default [] (values state !! "messages")).

(** [load_conversation] over any [chatbot.get_state]: [get_state] returns
    the thread's snapshot or raises. *)
Definition load_conversation_via (get_state : string -> M StateSnapshot)
    (thread_id : string) : M (list message) :=
  state ← get_state thread_id;
  mret (default [] (values state !! "messages")).

(** *** Python [str], as the sequence of its code points *)

Abbreviation str := (list N).

Definition of_string (s : string) : str :=
  map Ascii.N_of_ascii (String.list_ascii_of_string s).

(** [str.isspace] on one character: the code points that [strip()] and
    [split()] without arguments treat as whitespace. *)
Definition isspace (c : N) : bool :=
  ((9 <=? c) && (c <=? 13) || (28 <=? c) && (c <=? 32)
   || (c =? 133) || (c =? 160) || (c =? 5760)
   || (8192 <=? c) && (c <=? 8202)
   || (c =? 8232) || (c =? 8233) || (c =? 8239) || (c =? 8287)
   || (c =? 12288))%N.

Fixpoint lstrip (s : str) : str :=
  match s with
  | [] => []
  | c :: s' => if isspace c then lstrip s' else s
  end.

Definition rstrip (s : str) : str := rev (lstrip (rev s)).

(** [s.strip()] *)
Definition strip (s : str) : str := rstrip (lstrip s).

(** [s.split()]: the maximal runs of non-whitespace characters. *)
Fixpoint split (s : str) : list str :=
  match s with
  | [] => []
  | c :: s' =>
      if isspace c then split s'
      else
        match s' with
        | [] => [[c]]
        | c' :: _ =>
            if isspace c' then [c] :: split s'
            else
              match split s' with
              | w :: ws => (c :: w) :: ws
              | [] => [[c]]
              end
        end
  end.

(** [sep.join(words)] *)
Fixpoint join (sep : str) (words : list str) : str :=
  match words with
  | [] => []
  | [w] => w
  | w :: ws => (w ++ sep ++ join sep ws)%list
  end.

Definition generate_thread_name (first_message : str) : str :=
  match first_message with
  | [] => of_string "New Chat"
  | _ =>
      let name := strip first_message in
      let name :=
        if (50 <? length name)%nat
        then (take 47 name ++ of_string "...")%list
        else name in
      let name := join (of_string " ") (split name) in
      match name with
      | [] => of_string "New Chat"
      | _ => name
      end
  end.

(** A computation that leaves the checkpoint table as it found it. *)
Definition keeps_db {A} (m : M A) : Prop :=
  forall w, db (snd (m w)) = db w.

(** *** What a tidy name is made of *)

(** A word: a non-empty run of characters that are not whitespace. *)
Definition word (w : str) : Prop :=
  w <> [] /\ Forall (fun c => isspace c = false) w.

Definition is_space (c : N) : bool := (c =? 32)%N.

(** Some space is followed by another space. *)
Fixpoint double_space (s : str) : bool :=
  match s with
  | [] => false
  | c :: s' =>
      is_space c
      && match s' with
         | c' :: _ => is_space c'
         | [] => false
         end
      || double_space s'
  end.

(** A computation that leaves the checkpoint of one thread as it found it. *)
Definition keeps_thread {A} (thread_id : string) (m : M A) : Prop :=
  forall w, db (snd (m w)) !! thread_id = db w !! thread_id.

(** One round of a turn: the assistant's request and, for each of its
    calls in order, the tool message that answers it. *)
Definition round (execute : tool_call -> string)
    (request : string * list tool_call) : list message :=
  AIMessage (fst request) (snd request)
    :: map (tool_message execute) (snd request).

(** ** frontend.py: the session *)

(** A thread identifier as the front end holds it: the [uuid.UUID] that
    [generate_thread_id] made, or the text under which the checkpointer
    lists a stored thread.  A UUID and a text never compare equal. *)
Inductive thread_key := Uuid (hex : string) | Stored (text : string).

Global Instance thread_key_eq_dec : EqDecision thread_key.
Proof. solve_decision. Defined.

(** [str(thread_id)]: the text the checkpointer keys a thread's rows by. *)
Definition key_str (thread_id : thread_key) : string :=
  match thread_id with
  | Uuid hex => hex
  | Stored text => text
  end.

(** [uuid.uuid4()], given the random digits it drew. *)
Definition generate_thread_id (hex : string) : thread_key := Uuid hex.

(** An entry of [chat_threads]: [{"id": ..., "name": ...}]. *)
Record thread := Thread { t_id : thread_key; t_name : str }.

(** An entry of [message_history]: [{"role": ..., "content": ...}]. *)
Record entry := Entry { e_role : string; e_content : string }.

(** [st.session_state], once its three keys are set. *)
Record session_state := Session {
  message_history : list entry;
  session_thread_id : thread_key;
  chat_threads : list thread
}.

Definition add_thread (thread_id : thread_key) (thread_name : str)
    (st : session_state) : session_state :=
  if decide (thread_id ∈ map t_id (chat_threads st)) then st
  else
    Session (message_history st) (session_thread_id st)
      (chat_threads st ++ [Thread thread_id thread_name])%list.

(** The loop of [update_thread_name]: the first thread with the identifier
    gets the name, and the loop breaks. *)
Fixpoint rename_first (thread_id : thread_key) (new_name : str)
    (threads : list thread) : list thread :=
  match threads with
  | [] => []
  | t :: rest =>
      if decide (t_id t = thread_id)
      then Thread (t_id t) new_name :: rest
      else t :: rename_first thread_id new_name rest
  end.

Definition update_thread_name (thread_id : thread_key) (new_name : str)
    (st : session_state) : session_state :=
  Session (message_history st) (session_thread_id st)
    (rename_first thread_id new_name (chat_threads st)).

Definition reset_chat (hex : string) (st : session_state) : session_state :=
  let thread_id := generate_thread_id hex in
  let st := Session (message_history st) thread_id (chat_threads st) in
  let st := add_thread thread_id (of_string "New Chat") st in
  Session [] (session_thread_id st) (chat_threads st).


(** The content of the first [HumanMessage], or the empty text. *)
Fixpoint first_message (messages : list message) : string :=
  match messages with
  | [] => ""
  | HumanMessage content :: _ => content
  | _ :: rest => first_message rest
  end.


(** What was done to the status container of a turn, in order. *)
Inductive status_event :=
| StatusOpen (label : string)
| StatusUpdate (label : string) (state : string) (expanded : bool).

(** The label of the container while a tool runs (as UTF-8). *)
Definition using_label (tool_name : string) : string :=
  "🔧 Using `" ++ tool_name ++ "` …".

(** The generator [ai_only_stream], run over the chunks of a turn:
    [status_holder] is the container if one was opened, with what was done
    to it; the result is what the generator yielded and the holder at the
    end. *)
Fixpoint ai_only_stream (chunks : list message)
    (status_holder : option (list status_event))
    : list string * option (list status_event) :=
  match chunks with
  | [] => ([], status_holder)
  | message_chunk :: rest =>
      let status_holder :=
        match message_chunk with
        | ToolMessage _ tool_name _ =>
            match status_holder with
            | None => Some [StatusOpen (using_label tool_name)]
            | Some box =>
                Some (box ++ [StatusUpdate (using_label tool_name) "running"
                                true])%list
            end
        | _ => status_holder
        end in
      let '(yielded, status_holder) := ai_only_stream rest status_holder in
      (match message_chunk with
       | AIMessage content _ => content :: yielded
       | _ => yielded
       end, status_holder)
  end.

(** "Finalize only if a tool was actually used" *)
Definition finalize (status_holder : option (list status_event))
    : option (list status_event) :=
  match status_holder with
  | Some box =>
      Some (box ++ [StatusUpdate "✅ Tool finished" "complete" false])%list
  | None => None
  end.

(** [st.write_stream] of text chunks returns the text they add up to. *)
Definition write_stream (yielded : list string) : string :=
  String.concat "" yielded.

(** [st.session_state] as a run of the script finds it: each key is set
    or still missing. *)
Record raw_session := RawSession {
  raw_message_history : option (list entry);
  raw_thread_id : option thread_key;
  raw_chat_threads : option (list thread)
}.

Section frontend.
(** The code points of a text: message contents are texts, and
    [generate_thread_name] works on code points. *)
Variable code_points : string -> str.

(** [chatbot.stream(..., stream_mode="messages")], run to its end: the
    chunks of the turn, or the exception that ended it. *)
Variable stream_messages :
  compiled_graph -> list message -> string -> M (list message).

(** [checkpointer.list(None)] and [chatbot.get_state], whatever they do:
    each returns or raises, and may print or write on the way. *)
Variable checkpointer_list : saver -> M (list string).
Variable chatbot_get_state : string -> M StateSnapshot.

(** The loop of [get_thread_name_from_existing_threads]. *)
Fixpoint convert_threads (existing_threads : list string) : M (list thread) :=
  match existing_threads with
  | [] => mret []
  | thread_id :: rest =>
      messages ← load_conversation_via chatbot_get_state thread_id;
      let thread_name :=
        generate_thread_name (code_points (first_message messages)) in
      converted_threads ← convert_threads rest;
      mret (Thread (Stored thread_id) thread_name :: converted_threads)
  end.

Definition get_thread_name_from_existing_threads
    (checkpointer : option saver) : M (list thread) :=
  existing_threads ← retrieve_all_threads_via checkpointer_list checkpointer;
  convert_threads existing_threads.

(** Session initialization: missing keys are filled in, and the current
    thread is added if it is not listed. *)
Definition initialize (checkpointer : option saver) (hex : string)
    (raw : raw_session) : M session_state :=
  let message_history := default [] (raw_message_history raw) in
  let thread_id := default (generate_thread_id hex) (raw_thread_id raw) in
  chat_threads ← match raw_chat_threads raw with
                 | Some threads => mret threads
                 | None => get_thread_name_from_existing_threads checkpointer
                 end;
  let st := Session message_history thread_id chat_threads in
  let current_thread_exists :=
    existsb (fun t => bool_decide (t_id t = thread_id)) chat_threads in
  mret (if current_thread_exists then st
        else add_thread thread_id (of_string "New Chat") st).


(** "Update thread name if this is the first message in a new chat" *)
Definition rename_on_first_message (user_input : string)
    (st : session_state) : session_state :=
  let current_thread :=
    find (fun t => bool_decide (t_id t = session_thread_id st))
      (chat_threads st) in
  match current_thread with
  | Some t =>
      if bool_decide (t_name t = of_string "New Chat")
         && bool_decide (message_history st = [])
      then
        let new_name := generate_thread_name (code_points user_input) in
        update_thread_name (session_thread_id st) new_name st
      else st
  | None => st
  end.

(** The script from [if user_input:] on.  The empty text stands for no
    input.  On success the status container of the turn is returned. *)
Definition submit (chatbot : compiled_graph) (user_input : string)
    (st : session_state) (w : world)
    : res (option (list status_event)) * session_state * world :=
  match user_input with
  | "" => (Ret None, st, w)
  | _ =>
      let st := rename_on_first_message user_input st in
      let st :=
        Session (message_history st ++ [Entry "user" user_input])%list
          (session_thread_id st) (chat_threads st) in
      match
        stream_messages chatbot [HumanMessage user_input]
          (key_str (session_thread_id st)) w
      with
      | (Ret chunks, w') =>
          let '(yielded, status_holder) := ai_only_stream chunks None in
          let ai_message := write_stream yielded in
          (Ret (finalize status_holder),
           Session (message_history st ++ [Entry "assistant" ai_message])%list
             (session_thread_id st) (chat_threads st), w')
      | (Raise e, w') => (Raise e, st, w')
      end
  end.
End frontend.

(** * Properties *)

(** ** The calculator *)

Example calculator_2_3_add :
  calculator 2%float 3%float "add"
  = Ret (calculator_success 2%float 3%float "add" 5%float).
Proof. reflexivity. Qed.

Lemma eqb_false (s t : string) : s <> t -> String.eqb s t = false.
Proof. apply String.eqb_neq. Qed.

(** The number the calculator computes for a supported operation whose
    divisor, if it divides, is not zero. *)
Lemma calculator_supported (a b : float) (operation : string) :
  supported operation ->
  (operation = "div" -> PrimFloat.eqb b 0%float = false) ->
  exists result,
    calculator a b operation
    = Ret (calculator_success a b operation result)
    /\ (operation = "add" -> result = PrimFloat.add a b)
    /\ (operation = "sub" -> result = PrimFloat.sub a b)
    /\ (operation = "mul" -> result = PrimFloat.mul a b)
    /\ (operation = "div" -> result = PrimFloat.div a b).
Proof.
  intros [-> | [-> | [-> | ->]]] Hb.
  - exists (PrimFloat.add a b). by repeat split.
  - exists (PrimFloat.sub a b). by repeat split.
  - exists (PrimFloat.mul a b). by repeat split.
  - exists (PrimFloat.div a b). unfold calculator, truediv; simpl.
    rewrite (Hb eq_refl); simpl. by repeat split.
Qed.

Lemma calculator_success_keys (a b : float) (operation : string) (r : float) :
  dom (calculator_success a b operation r)
  = ({["first_num"; "second_num"; "operation"; "result"]} : gset string).
Proof.
  unfold calculator_success. rewrite !dom_insert_L, dom_empty_L. set_solver.
Qed.

(** C4: a zero divisor and an unknown operation name both come back as an
    [error] payload, never as an exception: [calculator(a, 0, "div")] is
    [{"error": "Division by zero is not allowed"}] for every [a] (and for
    every divisor that compares equal to zero), and an operation outside
    add, sub, mul, div is reported as [Unsupported operation '<operation>']. *)
Theorem calculator_error_payloads :
  (forall a b : float,
      PrimFloat.eqb b 0%float = true ->
      calculator a b "div"
      = Ret {["error" := VStr "Division by zero is not allowed"]})
  /\ (forall a : float,
        calculator a 0%float "div"
        = Ret {["error" := VStr "Division by zero is not allowed"]})
  /\ (forall (a b : float) (operation : string),
        ~ supported operation ->
        calculator a b operation
        = Ret {["error" :=
                  VStr ("Unsupported operation '" ++ operation ++ "'")]})
  /\ calculator 4%float 0%float "div"
     = Ret {["error" := VStr "Division by zero is not allowed"]}
  /\ calculator 1%float 2%float "xor"
     = Ret {["error" := VStr "Unsupported operation 'xor'"]}.
Proof.
  repeat split; try reflexivity.
  - intros a b Hb. unfold calculator; simpl. by rewrite Hb.
  - intros a b operation Hno. unfold calculator, supported in *.
    rewrite !eqb_false by tauto. reflexivity.
Qed.

Lemma calculator_error_payloads_witness :
  calculator 2%float 8%float "pow"
  = Ret {["error" := VStr "Unsupported operation 'pow'"]}.
Proof.
  apply (proj1 (proj2 (proj2 calculator_error_payloads)) 2%float 8%float "pow").
  unfold supported. intros [H | [H | [H | H]]]; discriminate H.
Defined.

(** C5, as the code has it: for a supported operation (with a divisor that
    is not zero when it divides) the calculator returns, without raising, a
    payload that holds the computed number under [result] and has no
    [error], next to the two numbers under [first_num] and [second_num]
    and the operation name under [operation];
    [calculator(2, 3, "add")] holds [5] under [result]. *)
Theorem calculator_result :
  (forall (a b : float) (operation : string),
      supported operation ->
      (operation = "div" -> PrimFloat.eqb b 0%float = false) ->
      exists (payload : dict) (result : float),
        calculator a b operation = Ret payload
        /\ payload !! "result" = Some (VFloat result)
        /\ payload !! "error" = None
        /\ payload !! "first_num" = Some (VFloat a)
        /\ payload !! "second_num" = Some (VFloat b)
        /\ payload !! "operation" = Some (VStr operation)
        /\ (operation = "add" -> result = PrimFloat.add a b)
        /\ (operation = "sub" -> result = PrimFloat.sub a b)
        /\ (operation = "mul" -> result = PrimFloat.mul a b)
        /\ (operation = "div" -> result = PrimFloat.div a b))
  /\ exists payload : dict,
      calculator 2%float 3%float "add" = Ret payload
      /\ payload !! "result" = Some (VFloat 5%float)
      /\ payload !! "error" = None
      /\ payload !! "first_num" = Some (VFloat 2%float)
      /\ payload !! "second_num" = Some (VFloat 3%float)
      /\ payload !! "operation" = Some (VStr "add").
Proof.
  split.
  - intros a b operation Hop Hb.
    destruct (calculator_supported a b operation Hop Hb) as (r & Hc & Hr).
    exists (calculator_success a b operation r), r.
    split; [exact Hc |]. do 5 (split; [reflexivity |]).
    exact Hr.
  - exists (calculator_success 2%float 3%float "add" 5%float).
    repeat split; reflexivity.
Qed.

Lemma calculator_result_2_3_add :
  exists (payload : dict) (result : float),
    calculator 2%float 3%float "add" = Ret payload
    /\ payload !! "result" = Some (VFloat result)
    /\ payload !! "error" = None
    /\ payload !! "first_num" = Some (VFloat 2%float)
    /\ payload !! "second_num" = Some (VFloat 3%float)
    /\ payload !! "operation" = Some (VStr "add")
    /\ ("add" = "add" -> result = 5%float)
    /\ ("add" = "sub" -> result = PrimFloat.sub 2%float 3%float)
    /\ ("add" = "mul" -> result = PrimFloat.mul 2%float 3%float)
    /\ ("add" = "div" -> result = PrimFloat.div 2%float 3%float).
Proof.
  apply (proj1 calculator_result 2%float 3%float "add").
  - left. reflexivity.
  - intros H. discriminate H.
Defined.

(** C5, as the specification words it, fails: what [calculator(2, 3, "add")]
    returns is not the one-key payload [{"result": 5}]. *)
Lemma calculator_2_3_add_not_result_only :
  calculator 2%float 3%float "add" <> Ret {["result" := VFloat 5%float]}.
Proof.
  intros H.
  apply (f_equal (fun r : res dict =>
                    match r with
                    | Ret d => d !! "first_num"
                    | Raise _ => None
                    end)) in H.
  vm_compute in H. discriminate H.
Qed.

(** C9: the success payload of a supported operation has exactly the keys
    [first_num], [second_num], [operation] and [result]; it echoes the two
    numbers and the operation name next to the computed number, so it is
    not the payload that holds the result alone. *)
Theorem calculator_success_payload (a b : float) (operation : string) :
  supported operation ->
  (operation = "div" -> PrimFloat.eqb b 0%float = false) ->
  exists (payload : dict) (result : float),
    calculator a b operation = Ret payload
    /\ dom payload
       = ({["first_num"; "second_num"; "operation"; "result"]} : gset string)
    /\ payload !! "first_num" = Some (VFloat a)
    /\ payload !! "second_num" = Some (VFloat b)
    /\ payload !! "operation" = Some (VStr operation)
    /\ payload !! "result" = Some (VFloat result)
    /\ payload <> {["result" := VFloat result]}
    /\ (operation = "add" -> result = PrimFloat.add a b)
    /\ (operation = "sub" -> result = PrimFloat.sub a b)
    /\ (operation = "mul" -> result = PrimFloat.mul a b)
    /\ (operation = "div" -> result = PrimFloat.div a b).
Proof.
  intros Hop Hb.
  destruct (calculator_supported a b operation Hop Hb) as (r & Hc & Hr).
  exists (calculator_success a b operation r), r.
  split; [exact Hc |]. split; [apply calculator_success_keys |].
  do 4 (split; [reflexivity |]).
  split; [| exact Hr].
  intros H. apply (f_equal (fun d : dict => d !! "first_num")) in H.
  vm_compute in H. discriminate H.
Qed.

Lemma calculator_success_payload_6_3_div :
  exists (payload : dict) (result : float),
    calculator 6%float 3%float "div" = Ret payload
    /\ dom payload
       = ({["first_num"; "second_num"; "operation"; "result"]} : gset string)
    /\ payload !! "first_num" = Some (VFloat 6%float)
    /\ payload !! "second_num" = Some (VFloat 3%float)
    /\ payload !! "operation" = Some (VStr "div")
    /\ payload !! "result" = Some (VFloat result)
    /\ payload <> {["result" := VFloat result]}
    /\ ("div" = "add" -> result = PrimFloat.add 6%float 3%float)
    /\ ("div" = "sub" -> result = PrimFloat.sub 6%float 3%float)
    /\ ("div" = "mul" -> result = PrimFloat.mul 6%float 3%float)
    /\ ("div" = "div" -> result = 2%float).
Proof.
  apply (calculator_success_payload 6%float 3%float "div").
  - right. right. right. reflexivity.
  - intros _. reflexivity.
Defined.

(** ** Failures inside the tools *)

Lemma calculator_returns (a b : float) (operation : string) :
  exists payload : dict, calculator a b operation = Ret payload.
Proof.
  unfold calculator, truediv.
  destruct (String.eqb operation "add"); [by eexists |].
  destruct (String.eqb operation "sub"); [by eexists |].
  destruct (String.eqb operation "mul"); [by eexists |].
  destruct (String.eqb operation "div"); [| by eexists].
  destruct (PrimFloat.eqb b 0%float); by eexists.
Qed.

(** Once the tool object is built, [brave_search] returns whatever the
    search does: its result, or the text of its failure. *)
Lemma brave_search_built (T : Type) (DuckDuckGoSearchRun : string -> res T)
    (run : T -> string -> res string) (query : string) (tool : T) :
  DuckDuckGoSearchRun "us-en" = Ret tool ->
  brave_search T DuckDuckGoSearchRun run query
  = match run tool query with
    | Ret result => Ret result
    | Raise e => Ret ("Search failed: " ++ exn_str e)
    end.
Proof.
  intros Hbuilt. unfold brave_search. rewrite Hbuilt. simpl.
  by destruct (run tool query).
Qed.

(** C7 fails for [brave_search]: the search tool object is built before
    the [try], so whatever building it raises (the search package cannot be
    imported, say) leaves the tool, whatever the query and whatever the
    search would have done, where the claim has an error text. *)
Theorem brave_search_construction_escapes (T : Type)
    (DuckDuckGoSearchRun : string -> res T) (run : T -> string -> res string)
    (query : string) (e : exn) :
  DuckDuckGoSearchRun "us-en" = Raise e ->
  brave_search T DuckDuckGoSearchRun run query = Raise e
  /\ forall text : string,
      brave_search T DuckDuckGoSearchRun run query <> Ret text.
Proof.
  intros Hbuilt. unfold brave_search. rewrite Hbuilt. simpl.
  split; [reflexivity |]. intros text H. discriminate H.
Qed.

Lemma brave_search_construction_escapes_witness :
  brave_search unit
    (fun _ => Raise (Exn OtherException "Could not import ddgs python package."))
    (fun _ _ => Ret "Sunny, 21 degrees.") "weather in Paris"
  = Raise (Exn OtherException "Could not import ddgs python package.").
Proof.
  apply (brave_search_construction_escapes unit
           (fun _ => Raise (Exn OtherException
                              "Could not import ddgs python package."))
           (fun _ _ => Ret "Sunny, 21 degrees.") "weather in Paris"
           (Exn OtherException "Could not import ddgs python package.")).
  reflexivity.
Defined.

(** X20: what the tools do handle.  With the search tool object built,
    [brave_search] never raises: it returns the search result, or the text
    [Search failed: ...] when the search raised.  [calculator] returns a
    payload for all arguments.  [get_stock_price], whose calls are all
    inside its [try], returns the decoded quote or an [{"error": text}]
    payload whatever the request, the status check and the decoding do. *)
Theorem tools_handle_failures :
  (forall (T : Type) DuckDuckGoSearchRun (run : T -> string -> res string)
          query tool,
      DuckDuckGoSearchRun "us-en" = Ret tool ->
      (exists result,
          brave_search T DuckDuckGoSearchRun run query = Ret result)
      /\ (forall result,
            run tool query = Ret result ->
            brave_search T DuckDuckGoSearchRun run query = Ret result)
      /\ (forall e,
            run tool query = Raise e ->
            brave_search T DuckDuckGoSearchRun run query
            = Ret ("Search failed: " ++ exn_str e)))
  /\ (forall a b operation,
        exists payload, calculator a b operation = Ret payload)
  /\ (forall requests_get raise_for_status json response_json symbol,
        (exists quote : json,
            get_stock_price requests_get raise_for_status json response_json
              symbol = Ret (inl quote))
        \/ (exists text : string,
              get_stock_price requests_get raise_for_status json
                response_json symbol
              = Ret (inr {["error" := VStr text]})))
  /\ (forall requests_get raise_for_status json response_json symbol e,
        requests_get
          ("https://www.alphavantage.co/query?function=GLOBAL_QUOTE&symbol="
           ++ symbol ++ "&apikey=02N8BQIZNVL0B3RU") 10%Z = Raise e ->
        exists text : string,
          get_stock_price requests_get raise_for_status json response_json
            symbol
          = Ret (inr {["error" := VStr text]}))
  /\ (forall requests_get raise_for_status json response_json symbol
             response e,
        requests_get
          ("https://www.alphavantage.co/query?function=GLOBAL_QUOTE&symbol="
           ++ symbol ++ "&apikey=02N8BQIZNVL0B3RU") 10%Z = Ret response ->
        raise_for_status response = Ret tt ->
        response_json response = Raise e ->
        exists text : string,
          get_stock_price requests_get raise_for_status json response_json
            symbol
          = Ret (inr {["error" := VStr text]})).
Proof.
  split.
  { intros T ctor run query tool Hbuilt.
    rewrite (brave_search_built T ctor run query tool Hbuilt).
    split; [destruct (run tool query); by eexists |].
    split; [by intros result -> | by intros e ->]. }
  split; [exact calculator_returns |].
  split.
  { intros get rfs json rj symbol. unfold get_stock_price.
    destruct (get _ _) as [response | e]; simpl.
    - destruct (rfs response) as [[] | e]; simpl.
      + destruct (rj response) as [quote | e]; simpl.
        * left. by eexists.
        * right. destruct (is_RequestException e); by eexists.
      + right. destruct (is_RequestException e); by eexists.
    - right. destruct (is_RequestException e); by eexists. }
  split.
  { intros get rfs json rj symbol e H. unfold get_stock_price.
    rewrite H; simpl. destruct (is_RequestException e); by eexists. }
  intros get rfs json rj symbol response e Hget Hrfs Hrj.
  unfold get_stock_price. rewrite Hget; simpl. rewrite Hrfs; simpl.
  rewrite Hrj; simpl. destruct (is_RequestException e); by eexists.
Qed.

Lemma tools_handle_failures_witness :
  brave_search unit (fun _ => Ret tt)
    (fun _ _ => Raise (Exn OtherException "timed out")) "weather in Paris"
  = Ret "Search failed: timed out".
Proof.
  apply (proj2 (proj2 (proj1 tools_handle_failures unit (fun _ => Ret tt)
                         (fun _ _ => Raise (Exn OtherException "timed out"))
                         "weather in Paris" tt eq_refl))
           (Exn OtherException "timed out")).
  reflexivity.
Defined.

(** ** The conversation graph *)

Ltac run_M :=
  unfold mbind, mret, M_bind, M_ret, lift, raise, try_exceptM, print, put,
    get_tuple in *;
  simpl in *.

Lemma save_returns g (thread_id : string) (messages : list message) (w : world) :
  exists w', save g thread_id messages w = (Ret tt, w')
             /\ stdout w' = stdout w.
Proof.
  unfold save. destruct (checkpointer g); run_M; by eexists.
Qed.

Lemma tools_condition_snoc (messages : list message) (m : message) (w : world) :
  tools_condition (messages ++ [m])%list w
  = (Ret (match tool_calls_of m with [] => END | _ :: _ => TOOLS end), w).
Proof.
  unfold tools_condition. rewrite last_snoc.
  by destruct (tool_calls_of m).
Qed.

(** [END] is where a run stops, whatever is left of the limit. *)
Lemma run_from_END llm execute (limit : nat) g (thread_id : string)
    (messages : list message) (w : world) :
  run_from llm execute limit g thread_id END messages w = (Ret messages, w).
Proof. by destruct limit. Qed.

(** Anywhere else a run with some limit left takes a step and goes on. *)
Lemma run_from_step llm execute (limit : nat) g (thread_id : string)
    (n : node) (messages : list message) :
  n <> END ->
  run_from llm execute (S limit) g thread_id n messages
  = superstep llm execute g thread_id n messages
      ≫= (fun '(next, messages) =>
             run_from llm execute limit g thread_id next messages).
Proof. by destruct n. Qed.

(** The step taken in [CHAT_NODE] when the model client returned. *)
Lemma superstep_chat_node llm execute g (thread_id : string)
    (messages : list message) (response : message) (w : world) :
  llm messages = Ret response ->
  exists w',
    superstep llm execute g thread_id CHAT_NODE messages w
    = (Ret (match tool_calls_of response with [] => END | _ :: _ => TOOLS end,
            (messages ++ [response])%list), w').
Proof.
  intros Hllm. unfold superstep, node_action, chat_node, add_messages, edge.
  run_M. rewrite Hllm.
  destruct (save_returns g thread_id (messages ++ [response])%list w)
    as (w' & -> & _).
  rewrite tools_condition_snoc. by eexists.
Qed.

(** The step taken in [TOOLS]: it is entered with an assistant message
    last, answers each of its calls and hands control to [CHAT_NODE]. *)
Lemma superstep_tools llm execute g (thread_id : string)
    (messages : list message) (content : string) (calls : list tool_call)
    (w : world) :
  exists w',
    superstep llm execute g thread_id TOOLS
      (messages ++ [AIMessage content calls])%list w
    = (Ret (CHAT_NODE,
            ((messages ++ [AIMessage content calls])
               ++ map (tool_message execute) calls)%list), w').
Proof.
  unfold superstep, node_action, tool_node, add_messages, edge.
  rewrite last_snoc. run_M.
  destruct (save_returns g thread_id
              ((messages ++ [AIMessage content calls])
                 ++ map (tool_message execute) calls)%list w)
    as (w' & -> & _).
  by eexists.
Qed.


(** A turn with one tool call, run without a checkpointer and then with
    one: the history grows by the request, the tool's result and the
    answer, and with a checkpointer it is what the thread reads back as. *)
Example stream_once :
  fst (stream example_llm (fun _ => "5") (Compiled None)
         [HumanMessage "add 2 and 3"] "thread-1" (World [] ∅))
  = Ret [HumanMessage "add 2 and 3";
         AIMessage "" [ToolCall "calculator" ∅ "call_1"];
         ToolMessage "5" "calculator" "call_1";
         AIMessage "It is 5" []].
Proof. reflexivity. Qed.

Example stream_then_load :
  let chatbot := Compiled (Some (SqliteSaver (Connection "chatbot.db"))) in
  fst ((_ ← stream example_llm (fun _ => "5") chatbot
              [HumanMessage "add 2 and 3"] "thread-1";
        load_conversation chatbot "thread-1") (World [] ∅))
  = Ret [HumanMessage "add 2 and 3";
         AIMessage "" [ToolCall "calculator" ∅ "call_1"];
         ToolMessage "5" "calculator" "call_1";
         AIMessage "It is 5" []].
Proof. vm_compute. reflexivity. Qed.


Lemma chat_node_raise llm (messages : list message) (e : exn) (w : world) :
  llm messages = Raise e ->
  chat_node llm messages w
  = (Ret [apology e],
     World (stdout w ++ ["Error in chat_node: " ++ exn_str e]) (db w)).
Proof.
  intros Hllm. unfold chat_node. run_M. by rewrite Hllm.
Qed.

Lemma run_from_chat_node_raise llm execute g (thread_id : string)
    (messages : list message) (e : exn) (limit : nat) (w : world) :
  llm messages = Raise e ->
  exists w',
    superstep llm execute g thread_id CHAT_NODE messages w
    = (Ret (END, (messages ++ [apology e])%list), w')
    /\ run_from llm execute (S limit) g thread_id CHAT_NODE messages w
       = (Ret (messages ++ [apology e])%list, w').
Proof.
  intros Hllm.
  assert (exists w',
             superstep llm execute g thread_id CHAT_NODE messages w
             = (Ret (END, (messages ++ [apology e])%list), w')) as (w' & Hstep).
  { unfold superstep, node_action, add_messages, edge.
    unfold mbind at 1, M_bind. rewrite (chat_node_raise _ _ _ _ Hllm).
    unfold mbind at 1, M_bind.
    destruct (save_returns g thread_id (messages ++ [apology e])%list
                (World (stdout w ++ ["Error in chat_node: " ++ exn_str e])
                   (db w))) as (w' & -> & _).
    unfold mbind, M_bind. rewrite tools_condition_snoc. by eexists. }
  exists w'. split; [exact Hstep |].
  rewrite run_from_step by done.
  unfold mbind, M_bind. rewrite Hstep. by rewrite run_from_END.
Qed.

Lemma stream_unfold llm execute g (input : list message) (thread_id : string)
    (w : world) :
  exists w',
    stream llm execute g input thread_id w
    = run_from llm execute recursion_limit g thread_id CHAT_NODE
        (saved_messages g thread_id w ++ input)%list w'
    /\ stdout w' = stdout w.
Proof.
  destruct (save_returns g thread_id
              (saved_messages g thread_id w ++ input)%list w)
    as (w' & Hsave & Hout).
  exists w'. split; [| exact Hout].
  unfold stream, saved_messages, add_messages, edge in *.
  unfold mbind, mret, M_bind, M_ret, get_tuple.
  destruct g as [[c |]]; unfold save, put, mret, M_ret in Hsave;
    simpl in *; injection Hsave as <-; by rewrite ?lookup_empty.
Qed.

(** C2: an exception of the model client does not leave [chat_node]: the
    node returns exactly one assistant message, which describes the error
    and carries no tool call, the graph goes from [CHAT_NODE] to [END], and
    the run returns the history with that message last.  A turn whose
    first model call fails so ends with the user's input and that message. *)
Theorem model_failure_is_answered llm execute g (thread_id : string)
    (messages : list message) (e : exn) (w : world) :
  llm messages = Raise e ->
  fst (chat_node llm messages w)
  = Ret [AIMessage
           ("I apologize, but I encountered an error: Error in chat_node: "
            ++ exn_str e) []]
  /\ fst (superstep llm execute g thread_id CHAT_NODE messages w)
     = Ret (END, (messages ++ [apology e])%list)
  /\ (forall limit,
        fst (run_from llm execute (S limit) g thread_id CHAT_NODE messages w)
        = Ret (messages ++ [apology e])%list)
  /\ (forall input w0,
        messages = (saved_messages g thread_id w0 ++ input)%list ->
        fst (stream llm execute g input thread_id w0)
        = Ret (saved_messages g thread_id w0 ++ input ++ [apology e])%list).
Proof.
  intros Hllm. split; [| split; [| split]].
  - by rewrite (chat_node_raise _ _ _ _ Hllm).
  - destruct (run_from_chat_node_raise llm execute g thread_id messages e 0 w
                Hllm) as (w' & -> & _). done.
  - intros limit.
    destruct (run_from_chat_node_raise llm execute g thread_id messages e
                limit w Hllm) as (w' & _ & ->). done.
  - intros input w0 ->.
    destruct (stream_unfold llm execute g input thread_id w0)
      as (w1 & -> & _).
    destruct (run_from_chat_node_raise llm execute g thread_id _ e 24 w1
                Hllm) as (w' & _ & Hrun).
    change recursion_limit with 25. rewrite Hrun. simpl.
    by rewrite <- app_assoc.
Qed.

Lemma model_failure_is_answered_witness :
  fst (run_from (fun _ => Raise (Exn OtherException "rate limit reached"))
         (fun _ => "") 25 (Compiled (Some (SqliteSaver (Connection "chatbot.db"))))
         "thread-1" CHAT_NODE [HumanMessage "hello"] (World [] ∅))
  = Ret [HumanMessage "hello";
         AIMessage
           "I apologize, but I encountered an error: Error in chat_node: rate limit reached"
           []].
Proof.
  apply (model_failure_is_answered
           (fun _ => Raise (Exn OtherException "rate limit reached"))
           (fun _ => "") (Compiled (Some (SqliteSaver (Connection "chatbot.db"))))
           "thread-1" [HumanMessage "hello"]
           (Exn OtherException "rate limit reached") (World [] ∅)).
  reflexivity.
Defined.

(** ** Running without a checkpointer *)

Lemma keeps_db_ret {A} (a : A) : keeps_db (mret a).
Proof. by intros w. Qed.

Lemma keeps_db_raise {A} (e : exn) : keeps_db (@raise A e).
Proof. by intros w. Qed.

Lemma keeps_db_lift {A} (r : res A) : keeps_db (lift r).
Proof. by intros w. Qed.

Lemma keeps_db_print (line : string) : keeps_db (print line).
Proof. by intros w. Qed.

Lemma keeps_db_bind {A B} (m : M A) (f : A -> M B) :
  keeps_db m -> (forall a, keeps_db (f a)) -> keeps_db (m ≫= f).
Proof.
  intros Hm Hf w. unfold mbind, M_bind. specialize (Hm w).
  destruct (m w) as [[a | e] w']; simpl in *; [| exact Hm].
  by rewrite Hf.
Qed.

Lemma keeps_db_try {A} (body : M A) (handler : exn -> M A) :
  keeps_db body -> (forall e, keeps_db (handler e)) ->
  keeps_db (try_exceptM body handler).
Proof.
  intros Hm Hf w. unfold try_exceptM. specialize (Hm w).
  destruct (body w) as [[a | e] w']; simpl in *; [exact Hm |].
  by rewrite Hf.
Qed.

Create HintDb keeps_db.
#[local] Hint Resolve keeps_db_ret keeps_db_raise keeps_db_lift keeps_db_print
  keeps_db_bind keeps_db_try : keeps_db.

Lemma keeps_db_chat_node llm (messages : list message) :
  keeps_db (chat_node llm messages).
Proof. unfold chat_node. auto 6 with keeps_db. Qed.

Lemma keeps_db_tool_node execute (messages : list message) :
  keeps_db (tool_node execute messages).
Proof.
  unfold tool_node. destruct (last messages) as [[] |]; auto with keeps_db.
Qed.

Lemma keeps_db_tools_condition (messages : list message) :
  keeps_db (tools_condition messages).
Proof.
  unfold tools_condition. destruct (last messages) as [m |];
    [destruct (tool_calls_of m) |]; auto with keeps_db.
Qed.

Lemma keeps_db_edge (n : node) (messages : list message) :
  keeps_db (edge n messages).
Proof.
  destruct n; simpl; auto using keeps_db_tools_condition with keeps_db.
Qed.

Lemma keeps_db_superstep llm execute (thread_id : string) (n : node)
    (messages : list message) :
  keeps_db (superstep llm execute (Compiled None) thread_id n messages).
Proof.
  unfold superstep. apply keeps_db_bind.
  - destruct n; simpl;
      auto using keeps_db_chat_node, keeps_db_tool_node with keeps_db.
  - intros update. apply keeps_db_bind; [apply keeps_db_ret |].
    intros _. apply keeps_db_bind; [apply keeps_db_edge |].
    intros next. apply keeps_db_ret.
Qed.

Lemma keeps_db_run_from llm execute (limit : nat) (thread_id : string)
    (n : node) (messages : list message) :
  keeps_db (run_from llm execute limit (Compiled None) thread_id n messages).
Proof.
  revert n messages. induction limit as [| limit IH]; intros n messages.
  - destruct n; first [apply keeps_db_raise | apply keeps_db_ret].
  - destruct (decide (n = END)) as [-> | Hn]; [apply keeps_db_ret |].
    rewrite run_from_step by done.
    apply keeps_db_bind; [apply keeps_db_superstep |].
    intros [next messages']. apply IH.
Qed.

Lemma keeps_db_stream llm execute (input : list message) (thread_id : string) :
  keeps_db (stream llm execute (Compiled None) input thread_id).
Proof.
  unfold stream; simpl. apply keeps_db_bind; [apply keeps_db_ret |].
  intros saved. apply keeps_db_bind; [apply keeps_db_ret |].
  intros _. apply keeps_db_bind; [apply keeps_db_ret |].
  intros next. apply keeps_db_run_from.
Qed.

Lemma init_checkpointer_raise sqlite3_connect (e : exn) (w : world) :
  sqlite3_connect "chatbot.db" = Raise e ->
  init_checkpointer sqlite3_connect w
  = (Ret None,
     World (stdout w
              ++ ["Warning: Could not initialize checkpointer: " ++ exn_str e])
       (db w)).
Proof.
  intros H. unfold init_checkpointer. run_M. by rewrite H.
Qed.

(** C8: when opening the checkpoint store raises, importing [rr] still
    returns: it prints a warning, leaves [checkpointer] at [None] and
    compiles the graph without one.  In that mode [retrieve_all_threads]
    returns the empty list, a turn is still answered from its own input,
    and no run writes to the checkpoint table. *)
Theorem checkpointer_failure_degrades sqlite3_connect (e : exn) (w : world) :
  sqlite3_connect "chatbot.db" = Raise e ->
  import_rr sqlite3_connect w
  = (Ret (None, Compiled None),
     World (stdout w
              ++ ["Warning: Could not initialize checkpointer: " ++ exn_str e])
       (db w))
  /\ (forall w', retrieve_all_threads None w' = (Ret [], w'))
  /\ (forall llm execute input thread_id w',
        db (snd (stream llm execute (Compiled None) input thread_id w'))
        = db w')
  /\ (forall llm execute input response thread_id w',
        llm input = Ret response ->
        tool_calls_of response = [] ->
        fst (stream llm execute (Compiled None) input thread_id w')
        = Ret (input ++ [response])%list).
Proof.
  intros H. split; [| split; [| split]].
  - unfold import_rr. unfold mbind, M_bind.
    by rewrite (init_checkpointer_raise _ _ _ H).
  - done.
  - intros llm execute input thread_id w'. apply keeps_db_stream.
  - intros llm execute input response thread_id w' Hllm Hcalls.
    destruct (stream_unfold llm execute (Compiled None) input thread_id w')
      as (w1 & -> & _).
    change (saved_messages (Compiled None) thread_id w' ++ input)%list
      with input.
    destruct (superstep_chat_node llm execute (Compiled None) thread_id input
                response w1 Hllm) as (w2 & Hstep).
    rewrite Hcalls in Hstep. change recursion_limit with 25.
    rewrite run_from_step by done.
    unfold mbind, M_bind. rewrite Hstep. by rewrite run_from_END.
Qed.

Lemma checkpointer_failure_degrades_witness :
  import_rr (fun _ => Raise (Exn OtherException "unable to open database file"))
    (World [] ∅)
  = (Ret (None, Compiled None),
     World ["Warning: Could not initialize checkpointer: unable to open database file"]
       ∅).
Proof.
  apply (checkpointer_failure_degrades
           (fun _ => Raise (Exn OtherException "unable to open database file"))
           (Exn OtherException "unable to open database file") (World [] ∅)).
  reflexivity.
Defined.

(** ** Reading a thread back *)

Lemma edge_world (n : node) (messages : list message) (w : world) :
  snd (edge n messages w) = w.
Proof.
  destruct n; simpl; try done. unfold tools_condition.
  destruct (last messages) as [m |]; [destruct (tool_calls_of m) |]; done.
Qed.

(** With a checkpointer, a step that returns has checkpointed the state it
    returns, which extends the state it started from. *)
Lemma superstep_checkpointed llm execute (c : saver) (thread_id : string)
    (n next : node) (messages messages' : list message) (w w' : world) :
  superstep llm execute (Compiled (Some c)) thread_id n messages w
  = (Ret (next, messages'), w') ->
  db w' !! thread_id = Some {["messages" := messages']}
  /\ exists update, messages' = (messages ++ update)%list.
Proof.
  unfold superstep, add_messages, save; simpl.
  unfold mbind at 1, M_bind.
  destruct (node_action llm execute n messages w) as [[update | e] w1];
    [| done].
  run_M.
  pose proof (edge_world n (messages ++ update)
                (World (stdout w1)
                   (<[thread_id := {["messages" := (messages ++ update)%list]}]>
                      (db w1)))) as Hw.
  destruct (edge n _ _) as [[nxt | e] w2]; [| done].
  simpl in Hw. subst w2. intros [= <- <- <-]. simpl.
  split; [apply lookup_insert_eq | by eexists].
Qed.

Lemma run_from_checkpointed llm execute (c : saver) (thread_id : string)
    (limit : nat) (n : node) (messages result : list message) (w w' : world) :
  db w !! thread_id = Some {["messages" := messages]} ->
  run_from llm execute limit (Compiled (Some c)) thread_id n messages w
  = (Ret result, w') ->
  db w' !! thread_id = Some {["messages" := result]}
  /\ exists produced, result = (messages ++ produced)%list.
Proof.
  revert n messages w.
  assert (Hend : forall messages w,
             db w !! thread_id = Some {["messages" := messages]} ->
             (Ret messages, w) = (Ret result, w') ->
             db w' !! thread_id = Some {["messages" := result]}
             /\ exists produced, result = (messages ++ produced)%list).
  { intros messages w Hdb [= <- <-]. split; [done |].
    exists []. by rewrite app_nil_r. }
  induction limit as [| limit IH]; intros n messages w Hdb Hrun.
  - destruct n; simpl in Hrun; try done. by apply (Hend messages w).
  - assert (Hstep :
      (superstep llm execute (Compiled (Some c)) thread_id n messages
         ≫= (fun '(next, messages) =>
                run_from llm execute limit (Compiled (Some c)) thread_id next
                  messages)) w = (Ret result, w') ->
      db w' !! thread_id = Some {["messages" := result]}
      /\ exists produced, result = (messages ++ produced)%list).
    { unfold mbind, M_bind.
      destruct (superstep llm execute (Compiled (Some c)) thread_id n
                  messages w) as [[[next messages1] | e] w1] eqn:Hs; [| done].
      intros Hrest.
      destruct (superstep_checkpointed _ _ _ _ _ _ _ _ _ _ Hs)
        as (Hdb1 & update & ->).
      destruct (IH _ _ _ Hdb1 Hrest) as (Hdb' & produced & ->).
      split; [done |]. exists (update ++ produced)%list.
      by rewrite app_assoc. }
    destruct n; simpl in Hrun; try (by apply Hstep).
    by apply (Hend messages w).
Qed.

Lemma stream_checkpointed llm execute (c : saver) (input : list message)
    (thread_id : string) (w : world) :
  stream llm execute (Compiled (Some c)) input thread_id w
  = run_from llm execute recursion_limit (Compiled (Some c)) thread_id
      CHAT_NODE
      (saved_messages (Compiled (Some c)) thread_id w ++ input)%list
      (World (stdout w)
         (<[thread_id :=
              {["messages" :=
                  (saved_messages (Compiled (Some c)) thread_id w
                     ++ input)%list]}]> (db w))).
Proof. reflexivity. Qed.

Lemma load_conversation_checkpointed (c : saver) (thread_id : string)
    (messages : list message) (w : world) :
  db w !! thread_id = Some {["messages" := messages]} ->
  load_conversation (Compiled (Some c)) thread_id w = (Ret messages, w).
Proof.
  intros Hdb. unfold load_conversation, get_state, get_tuple.
  unfold mbind, mret, M_bind, M_ret. cbn [checkpointer values].
  rewrite Hdb. unfold default; cbn [from_option]; unfold id.
  by rewrite lookup_singleton_eq.
Qed.

(** With a checkpointer, what a finished turn returned is what reading the
    thread back returns; it is the thread's earlier history, then the
    input, then what the turn produced. *)
Lemma load_conversation_roundtrip llm execute (c : saver)
    (input result : list message) (thread_id : string) (w w' : world) :
  stream llm execute (Compiled (Some c)) input thread_id w = (Ret result, w') ->
  load_conversation (Compiled (Some c)) thread_id w' = (Ret result, w')
  /\ exists produced,
      result
      = (saved_messages (Compiled (Some c)) thread_id w ++ input ++ produced)%list.
Proof.
  rewrite stream_checkpointed. intros Hrun.
  apply run_from_checkpointed in Hrun; [| apply lookup_insert_eq].
  destruct Hrun as (Hdb & produced & ->).
  split.
  - by apply load_conversation_checkpointed.
  - exists produced. by rewrite <- app_assoc.
Qed.

(** With a checkpointer, a thread that has no checkpoint reads as empty. *)
Lemma load_conversation_unknown_thread (c : saver) (thread_id : string)
    (w : world) :
  db w !! thread_id = None ->
  load_conversation (Compiled (Some c)) thread_id w = (Ret [], w).
Proof.
  intros Hdb. unfold load_conversation, get_state, get_tuple.
  unfold mbind, mret, M_bind, M_ret. cbn [checkpointer values].
  rewrite Hdb. unfold default; cbn [from_option]; unfold id.
  by rewrite lookup_empty.
Qed.

(** Reading one thread is not disturbed by turns on another thread. *)
Lemma put_other_thread (c : saver) (thread_id other : string)
    (values : channels) (w : world) :
  thread_id <> other ->
  db (snd (put c thread_id values w)) !! other = db w !! other.
Proof. intros Hne. unfold put; simpl. by apply lookup_insert_ne. Qed.

(** C3 fails when the store could not be opened: [rr] then compiles the
    graph without a checkpointer, and reading any thread raises
    [ValueError] where the claim has the empty sequence. *)
Theorem load_conversation_without_checkpointer :
  let sqlite3_connect :=
    fun _ : string =>
      Raise (Exn OtherException "unable to open database file")
        : res connection in
  exists chatbot w,
    import_rr sqlite3_connect (World [] ∅) = (Ret (None, chatbot), w)
    /\ retrieve_all_threads None w = (Ret [], w)
    /\ load_conversation chatbot "thread-1" w
       = (Raise (Exn ValueError "No checkpointer set"), w).
Proof.
  simpl. eexists _, _. split; [reflexivity |]. split; reflexivity.
Qed.

(** ** Thread names *)

Section thread_names.
Local Open Scope list_scope.

Example generate_thread_name_hello :
  generate_thread_name (of_string "  Hello   there, can you help?  ")
  = of_string "Hello there, can you help?".
Proof. reflexivity. Qed.

(** *** [strip] *)

Lemma lstrip_length (s : str) : length (lstrip s) <= length s.
Proof.
  induction s as [| c s IH]; simpl; [done |].
  destruct (isspace c); simpl; lia.
Qed.

Lemma strip_length (s : str) : length (strip s) <= length s.
Proof.
  unfold strip, rstrip. rewrite length_rev.
  etrans; [apply lstrip_length |]. rewrite length_rev.
  apply lstrip_length.
Qed.

Lemma lstrip_whitespace (s : str) :
  Forall (fun c => isspace c = true) s -> lstrip s = [].
Proof.
  induction 1 as [| c s Hc _ IH]; simpl; [done |]. by rewrite Hc.
Qed.

Lemma strip_whitespace (s : str) :
  Forall (fun c => isspace c = true) s -> strip s = [].
Proof.
  intros Hs. unfold strip. by rewrite (lstrip_whitespace s Hs).
Qed.

(** *** [split] *)

Lemma split_cons (c : N) (s : str) :
  split (c :: s)
  = if isspace c then split s
    else
      match s with
      | [] => [[c]]
      | c' :: _ =>
          if isspace c' then [c] :: split s
          else
            match split s with
            | w :: ws => (c :: w) :: ws
            | [] => [[c]]
            end
      end.
Proof. reflexivity. Qed.

Lemma split_words (s : str) : Forall word (split s).
Proof.
  induction s as [| c s IH]; [constructor |].
  rewrite split_cons. destruct (isspace c) eqn:Hc; [exact IH |].
  assert (Hw : word [c]) by (split; [done | by repeat constructor]).
  destruct s as [| c' s']; [by repeat constructor |].
  destruct (isspace c') eqn:Hc'; [by constructor |].
  destruct (split (c' :: s')) as [| w ws]; [by repeat constructor |].
  inversion IH as [| ? ? [_ Hw'] Hws]; subst.
  constructor; [| exact Hws]. split; [done | by constructor].
Qed.

Lemma split_whitespace (s : str) :
  Forall (fun c => isspace c = true) s -> split s = [].
Proof.
  induction 1 as [| c s Hc _ IH]; [done |].
  by rewrite split_cons, Hc.
Qed.

Lemma split_not_nil (s : str) :
  Exists (fun c => isspace c = false) s -> split s <> [].
Proof.
  induction s as [| c s IH]; intros Hex; [by inversion Hex |].
  rewrite split_cons. destruct (isspace c) eqn:Hc.
  - apply IH. inversion Hex; subst; [congruence | done].
  - destruct s as [| c' s']; [done |].
    destruct (isspace c'); [done |].
    by destruct (split (c' :: s')).
Qed.

(** *** [join] *)

Lemma join_cons (sep : str) (w : str) (ws : list str) :
  join sep (w :: ws)
  = match ws with
    | [] => w
    | _ :: _ => w ++ sep ++ join sep ws
    end.
Proof. by destruct ws. Qed.

Lemma join_cons_cons (sep : str) (c : N) (w : str) (ws : list str) :
  join sep ((c :: w) :: ws) = c :: join sep (w :: ws).
Proof. by destruct ws. Qed.

Lemma join_not_nil (sep : str) (ws : list str) :
  Forall word ws -> ws <> [] -> join sep ws <> [].
Proof.
  intros Hws Hne. destruct ws as [| w ws]; [done |].
  inversion Hws as [| ? ? [Hw _] _]; subst.
  rewrite join_cons. destruct ws; [done |].
  destruct w; [done | discriminate].
Qed.
(** Collapsing never lengthens: each run of whitespace becomes at most one
    space, and leading whitespace is dropped. *)
Lemma join_split_length_aux (s : str) :
  length (join [32%N] (split s))
  + (match s with
     | c :: _ => if isspace c then 1 else 0
     | [] => 0
     end)
  <= length s.
Proof.
  induction s as [| c s IH]; [done |].
  rewrite split_cons. destruct (isspace c) eqn:Hc.
  { cbn [length]. destruct s as [| c' s']; [simpl; lia |].
    destruct (isspace c'); lia. }
  destruct s as [| c' s']; [simpl; lia |].
  destruct (isspace c') eqn:Hc'.
  - rewrite join_cons. destruct (split (c' :: s')) as [| w ws] eqn:Hs.
    + simpl; lia.
    + rewrite !length_app. cbn [length] in *. lia.
  - destruct (split (c' :: s')) as [| w ws] eqn:Hs.
    + simpl; lia.
    + rewrite join_cons_cons. cbn [length] in *. lia.
Qed.

Lemma join_split_length (s : str) :
  length (join [32%N] (split s)) <= length s.
Proof. pose proof (join_split_length_aux s). lia. Qed.

(** *** No whitespace but single spaces *)
Lemma isspace_space (c : N) : is_space c = true -> isspace c = true.
Proof.
  unfold is_space. intros ->%N.eqb_eq. reflexivity.
Qed.

Lemma not_isspace_not_space (c : N) : isspace c = false -> is_space c = false.
Proof.
  intros Hc. destruct (is_space c) eqn:Hs; [| done].
  apply isspace_space in Hs. congruence.
Qed.

Lemma double_space_app_word (w r : str) :
  Forall (fun c => isspace c = false) w ->
  double_space (w ++ r) = double_space r.
Proof.
  induction 1 as [| c w Hc _ IH]; [done |].
  cbn [app double_space]. by rewrite (not_isspace_not_space c Hc), IH.
Qed.

Lemma join_head (ws : list str) :
  Forall word ws ->
  match join [32%N] ws with
  | c :: _ => is_space c = false
  | [] => True
  end.
Proof.
  intros Hws. destruct ws as [| w ws]; [done |].
  inversion Hws as [| ? ? [Hne Hw] _]; subst.
  rewrite join_cons.
  destruct w as [| c w]; [done |].
  inversion Hw; subst.
  destruct ws; simpl; by apply not_isspace_not_space.
Qed.

Lemma join_no_double_space (ws : list str) :
  Forall word ws -> double_space (join [32%N] ws) = false.
Proof.
  induction 1 as [| w ws [Hne Hw] Hws IH]; [done |].
  rewrite join_cons. destruct ws as [| w' ws'].
  - rewrite <- (app_nil_r w). by rewrite double_space_app_word.
  - rewrite double_space_app_word by done.
    pose proof (join_head (w' :: ws') Hws) as Hhead.
    cbn [app double_space]. rewrite IH.
    destruct (join [32%N] (w' :: ws')); [done |]. by rewrite Hhead.
Qed.

Lemma join_only_spaces (ws : list str) :
  Forall word ws ->
  Forall (fun c => isspace c = true -> c = 32%N) (join [32%N] ws).
Proof.
  induction 1 as [| w ws [Hne Hw] Hws IH]; [constructor |].
  assert (Hw' : Forall (fun c => isspace c = true -> c = 32%N) w).
  { eapply Forall_impl; [exact Hw |]. simpl. congruence. }
  rewrite join_cons. destruct ws; [exact Hw' |].
  apply Forall_app. split; [exact Hw' |].
  apply Forall_app. split; [by repeat constructor | exact IH].
Qed.

Lemma double_space_lookup (s : str) :
  double_space s = false ->
  forall i, s !! i = Some 32%N -> s !! S i <> Some 32%N.
Proof.
  induction s as [| c s IH]; intros Hs i Hi; [done |].
  cbn [double_space] in Hs.
  apply orb_false_iff in Hs as [Hhere Hrest].
  destruct i as [| i]; [| by apply IH].
  simpl in Hi. injection Hi as ->.
  destruct s as [| c' s']; [done |].
  simpl in *. intros [= ->]. done.
Qed.
(** *** [strip] only removes what [split] ignores *)

Lemma lstrip_decompose (s : str) :
  exists pre, s = pre ++ lstrip s /\ Forall (fun c => isspace c = true) pre.
Proof.
  induction s as [| c s (pre & IH & Hpre)]; [by exists [] |].
  simpl. destruct (isspace c) eqn:Hc.
  - exists (c :: pre). split; [by rewrite IH at 1 | by constructor].
  - by exists [].
Qed.

Lemma rstrip_decompose (s : str) :
  exists post, s = rstrip s ++ post /\ Forall (fun c => isspace c = true) post.
Proof.
  destruct (lstrip_decompose (rev s)) as (pre & Hs & Hpre).
  exists (rev pre). split.
  - unfold rstrip. rewrite <- rev_app_distr, <- Hs. by rewrite rev_involutive.
  - by apply Forall_rev.
Qed.

Lemma split_whitespace_app (pre s : str) :
  Forall (fun c => isspace c = true) pre -> split (pre ++ s) = split s.
Proof.
  induction 1 as [| c pre Hc _ IH]; [done |].
  cbn [app]. by rewrite split_cons, Hc.
Qed.

Lemma split_app_whitespace (s post : str) :
  Forall (fun c => isspace c = true) post -> split (s ++ post) = split s.
Proof.
  intros Hpost. induction s as [| c s IH].
  - by apply split_whitespace.
  - cbn [app]. rewrite !split_cons. destruct (isspace c); [exact IH |].
    destruct s as [| c' s'].
    + cbn [app]. destruct post as [| c' post']; [done |].
      inversion Hpost as [| ? ? Hc' Hpost']; subst. rewrite Hc'.
      by rewrite (split_whitespace (c' :: post') Hpost).
    + cbn [app] in *. by rewrite IH.
Qed.

Lemma split_strip (s : str) : split (strip s) = split s.
Proof.
  destruct (lstrip_decompose s) as (pre & Hs & Hpre).
  destruct (rstrip_decompose (lstrip s)) as (post & Hl & Hpost).
  unfold strip. rewrite Hs at 2. rewrite split_whitespace_app by done.
  rewrite Hl at 2. by rewrite split_app_whitespace.
Qed.

(** *** [generate_thread_name] *)

Lemma generate_thread_name_eq (first_message : str) :
  generate_thread_name first_message
  = match
      join [32%N]
        (split (if (50 <? length (strip first_message))%nat
                then take 47 (strip first_message) ++ of_string "..."
                else strip first_message))
    with
    | [] => of_string "New Chat"
    | name => name
    end.
Proof.
  destruct first_message as [| c m]; [reflexivity |].
  unfold generate_thread_name. cbv zeta.
  change (of_string " ") with [32%N].
  by destruct (join [32%N] _).
Qed.

Lemma generate_thread_name_cases (first_message : str) :
  generate_thread_name first_message = of_string "New Chat"
  \/ exists s,
      length s <= 50
      /\ generate_thread_name first_message = join [32%N] (split s)
      /\ join [32%N] (split s) <> [].
Proof.
  rewrite generate_thread_name_eq.
  set (s := if (50 <? length (strip first_message))%nat
            then take 47 (strip first_message) ++ of_string "..."
            else strip first_message).
  destruct (join [32%N] (split s)) as [| c name] eqn:Hname; [by left |].
  right. exists s. rewrite Hname. split; [| done].
  subst s. destruct (50 <? length (strip first_message))%nat eqn:Hlen.
  - apply Nat.ltb_lt in Hlen. rewrite length_app, length_take.
    change (length (of_string "...")) with 3. lia.
  - apply Nat.ltb_ge in Hlen. exact Hlen.
Qed.
Lemma new_chat_tidy :
  Forall (fun c => isspace c = true -> c = 32%N) (of_string "New Chat")
  /\ double_space (of_string "New Chat") = false.
Proof.
  split; [| reflexivity].
  apply Forall_forall. intros c Hc.
  apply list_elem_of_In in Hc. simpl in Hc.
  repeat (destruct Hc as [<- | Hc]; [by vm_compute |]). done.
Qed.

(** What every name has, whichever way it was produced. *)
Lemma generate_thread_name_shape (first_message : str) :
  generate_thread_name first_message <> []
  /\ length (generate_thread_name first_message) <= 50
  /\ Forall (fun c => isspace c = true -> c = 32%N)
       (generate_thread_name first_message)
  /\ double_space (generate_thread_name first_message) = false.
Proof.
  destruct (generate_thread_name_cases first_message)
    as [-> | (s & Hlen & -> & Hne)].
  - split; [done |]. split; [simpl; lia |]. exact new_chat_tidy.
  - split; [exact Hne |]. split.
    + etrans; [apply join_split_length | exact Hlen].
    + split; [apply join_only_spaces | apply join_no_double_space];
        apply split_words.
Qed.

(** C10: every thread name is non-empty and at most 50 characters long;
    it holds no line break (no whitespace at all but single spaces, never
    two in a row); the name of an empty or all-whitespace message is
    [New Chat]. *)
Theorem generate_thread_name_tidy (first_message : str) :
  generate_thread_name first_message <> []
  /\ length (generate_thread_name first_message) <= 50
  /\ (10%N ∉ generate_thread_name first_message)
  /\ (13%N ∉ generate_thread_name first_message)
  /\ Forall (fun c => isspace c = true -> c = 32%N)
       (generate_thread_name first_message)
  /\ (forall i,
        generate_thread_name first_message !! i = Some 32%N ->
        generate_thread_name first_message !! S i <> Some 32%N)
  /\ (Forall (fun c => isspace c = true) first_message ->
      generate_thread_name first_message = of_string "New Chat").
Proof.
  destruct (generate_thread_name_shape first_message)
    as (Hne & Hlen & Hsp & Hdouble).
  assert (Hnot : forall c,
             isspace c = true -> c <> 32%N ->
             c ∉ generate_thread_name first_message).
  { intros c Hc Hc32 Hin. rewrite Forall_forall in Hsp. by apply Hc32, Hsp. }
  repeat split; try done.
  - by apply Hnot.
  - by apply Hnot.
  - by apply double_space_lookup.
  - intros Hws. rewrite generate_thread_name_eq.
    by rewrite (strip_whitespace first_message Hws).
Qed.

Lemma generate_thread_name_tidy_witness :
  generate_thread_name [32%N; 10%N; 9%N; 32%N] = of_string "New Chat".
Proof.
  apply (generate_thread_name_tidy [32%N; 10%N; 9%N; 32%N]).
  repeat constructor.
Defined.
(** C6, as the code has it: the name is the message with its whitespace
    trimmed and collapsed when the trimmed message has at most 50
    characters ([New Chat] when nothing is left); when the trimmed message
    is longer, its first 47 characters followed by [...] are collapsed in
    the same way, which leaves at most 50 characters; the empty message is
    named [New Chat]. *)
Theorem generate_thread_name_spec :
  generate_thread_name (of_string "  Hello   there, can you help?  ")
  = of_string "Hello there, can you help?"
  /\ (forall first_message : str,
        length (strip first_message) <= 50 ->
        generate_thread_name first_message
        = match join (of_string " ") (split first_message) with
          | [] => of_string "New Chat"
          | name => name
          end)
  /\ (forall first_message : str,
        50 < length (strip first_message) ->
        generate_thread_name first_message
        = join (of_string " ")
            (split (take 47 (strip first_message) ++ of_string "..."))
        /\ length (generate_thread_name first_message) <= 50)
  /\ generate_thread_name [] = of_string "New Chat".
Proof.
  split; [reflexivity |]. split; [| split; [| reflexivity]].
  - intros m Hlen. rewrite generate_thread_name_eq.
    apply Nat.ltb_ge in Hlen. rewrite Hlen. by rewrite split_strip.
  - intros m Hlen. split.
    + rewrite generate_thread_name_eq.
      apply Nat.ltb_lt in Hlen. rewrite Hlen.
      change (of_string " ") with [32%N].
      destruct (join [32%N] _) as [| c name] eqn:Hname; [| done].
      exfalso. revert Hname. apply join_not_nil; [apply split_words |].
      apply split_not_nil, Exists_app. right. by left.
    + apply generate_thread_name_shape.
Qed.

Lemma generate_thread_name_spec_witness :
  generate_thread_name
    (of_string "   The quick brown fox jumps over the lazy dog, twice over   ")
  = of_string "The quick brown fox jumps over the lazy dog, tw...".
Proof.
  etrans.
  - apply (proj1 (proj2 (proj2 generate_thread_name_spec))). vm_compute. lia.
  - reflexivity.
Defined.

(** C6, as the specification words it, fails: a message of 62 characters
    is not cut to its first 47 characters and an ellipsis; the whitespace
    of the cut text is collapsed afterwards. *)
Lemma generate_thread_name_not_first_47 :
  50 < length (of_string "a                                                            b")
  /\ generate_thread_name (of_string "a                                                            b")
     <> take 47 (of_string "a                                                            b") ++ of_string "..."
  /\ generate_thread_name (of_string "a                                                            b") = of_string "a ...".
Proof.
  split; [vm_compute; lia |]. split; [| reflexivity].
  intros H. apply (f_equal length) in H. vm_compute in H. discriminate H.
Qed.
End thread_names.

(** * Further properties *)

(** ** [retrieve_all_threads] *)

Lemma elem_of_thread_ids (m : gmap string channels) (thread_id : string) :
  thread_id ∈ elements (list_to_set (map fst (map_to_list m)) : gset string)
  <-> is_Some (m !! thread_id).
Proof.
  rewrite elem_of_elements, elem_of_list_to_set, list_elem_of_fmap. split.
  - intros ([k v] & -> & Hkv). apply elem_of_map_to_list in Hkv. by eexists.
  - intros [v Hv]. exists (thread_id, v). split; [done |].
    by apply elem_of_map_to_list.
Qed.

(** What [retrieve_all_threads] returns, for any listing. *)
Lemma retrieve_all_threads_via_returns (list_rows : saver -> M (list string))
    (checkpointer : option saver) (w : world) :
  exists (ids : list string) (w' : world),
    retrieve_all_threads_via list_rows checkpointer w = (Ret ids, w')
    /\ NoDup ids
    /\ match checkpointer with
       | None => ids = [] /\ w' = w
       | Some c =>
           match list_rows c w with
           | (Ret rows, w1) =>
               w' = w1 /\ forall thread_id, thread_id ∈ ids <-> thread_id ∈ rows
           | (Raise e, w1) =>
               ids = []
               /\ w' = World (stdout w1
                               ++ ["Error retrieving threads: " ++ exn_str e])
                         (db w1)
           end
       end.
Proof.
  destruct checkpointer as [c |]; [| exists [], w; by repeat constructor].
  unfold retrieve_all_threads_via, try_exceptM, print.
  unfold mbind, mret, M_bind, M_ret.
  destruct (list_rows c w) as [[rows | e] w1].
  - eexists _, _. split; [reflexivity |]. split; [apply NoDup_elements |].
    split; [done |]. intros thread_id.
    by rewrite elem_of_elements, elem_of_list_to_set.
  - eexists _, _. split; [reflexivity |]. split; [constructor | done].
Qed.

(** X1: whatever [checkpointer.list] does, [retrieve_all_threads] never
    raises.  When the listing returns rows, the result holds every thread
    of the rows exactly once and nothing else, however often a thread
    occurs in them; when the listing raises, the error is printed and the
    result is empty; without a checkpointer the result is empty and nothing
    is listed at all. *)
Theorem retrieve_all_threads_lists (list_rows : saver -> M (list string))
    (checkpointer : option saver) (w : world) :
  exists (ids : list string) (w' : world),
    retrieve_all_threads_via list_rows checkpointer w = (Ret ids, w')
    /\ NoDup ids
    /\ match checkpointer with
       | None => ids = [] /\ w' = w
       | Some c =>
           match list_rows c w with
           | (Ret rows, w1) =>
               w' = w1 /\ forall thread_id, thread_id ∈ ids <-> thread_id ∈ rows
           | (Raise e, w1) =>
               ids = []
               /\ w' = World (stdout w1
                               ++ ["Error retrieving threads: " ++ exn_str e])
                         (db w1)
           end
       end.
Proof. apply retrieve_all_threads_via_returns. Qed.

(** With the store's own listing this is [retrieve_all_threads]. *)
Lemma retrieve_all_threads_is_via (checkpointer : option saver) (w : world) :
  retrieve_all_threads checkpointer w
  = retrieve_all_threads_via list_thread_ids checkpointer w.
Proof. reflexivity. Qed.

Example retrieve_all_threads_repeated_rows :
  exists ids : list string,
    fst (retrieve_all_threads_via
           (fun _ w => (Ret ["t1"; "t2"; "t1"; "t1"], w))
           (Some (SqliteSaver (Connection "chatbot.db"))) (World [] ∅))
    = Ret ids
    /\ length ids = 2.
Proof. eexists. split; [reflexivity |]. vm_compute. reflexivity. Qed.

Example retrieve_all_threads_failed_listing :
  retrieve_all_threads_via
    (fun _ w => (Raise (Exn OtherException "database is locked"), w))
    (Some (SqliteSaver (Connection "chatbot.db"))) (World [] ∅)
  = (Ret [], World ["Error retrieving threads: database is locked"] ∅).
Proof. reflexivity. Qed.

(** ** [chat_node] *)

Lemma chat_node_returns llm (messages : list message) (w : world) :
  exists m : message,
    fst (chat_node llm messages w) = Ret [m]
    /\ db (snd (chat_node llm messages w)) = db w
    /\ (forall response,
          llm messages = Ret response ->
          m = response /\ snd (chat_node llm messages w) = w)
    /\ (forall e, llm messages = Raise e -> m = apology e).
Proof.
  unfold chat_node. run_M. destruct (llm messages) as [response | e] eqn:H.
  - exists response. repeat split; try done; congruence.
  - exists (apology e). repeat split; try done; congruence.
Qed.

(** X2: [chat_node] never raises and always returns exactly one message:
    the model's reply, with nothing printed, or the apology for the
    exception the model client raised; it never writes a checkpoint. *)
Theorem chat_node_one_message llm (messages : list message) (w : world) :
  exists m : message,
    fst (chat_node llm messages w) = Ret [m]
    /\ db (snd (chat_node llm messages w)) = db w
    /\ (forall response,
          llm messages = Ret response ->
          m = response /\ snd (chat_node llm messages w) = w)
    /\ (forall e, llm messages = Raise e -> m = apology e).
Proof. apply chat_node_returns. Qed.

(** ** Whole turns *)

(** The step in [CHAT_NODE] always returns: the node's one message is
    appended, and control goes to [TOOLS] exactly when that message is an
    assistant message with calls. *)
Lemma superstep_chat_node_any llm execute g (thread_id : string)
    (messages : list message) (w : world) :
  exists (m : message) (w' : world),
    superstep llm execute g thread_id CHAT_NODE messages w
    = (Ret (match tool_calls_of m with [] => END | _ :: _ => TOOLS end,
            (messages ++ [m])%list), w').
Proof.
  destruct (chat_node_returns llm messages w) as (m & Hm & _).
  unfold superstep, node_action, add_messages, edge.
  unfold mbind at 1, M_bind.
  destruct (chat_node llm messages w) as [r w1]; simpl in Hm; subst r.
  unfold mbind at 1, M_bind.
  destruct (save_returns g thread_id (messages ++ [m])%list w1)
    as (w2 & -> & _).
  unfold mbind, M_bind. rewrite tools_condition_snoc. by eexists _, _.
Qed.

Lemma run_from_rounds llm execute g (thread_id : string) (limit : nat) :
  forall (messages result : list message) (w w' : world),
    run_from llm execute limit g thread_id CHAT_NODE messages w
    = (Ret result, w') ->
    exists (rounds : list (string * list tool_call)) (final : message),
      result
      = (messages ++ concat (map (round execute) rounds) ++ [final])%list
      /\ tool_calls_of final = []
      /\ Forall (fun request => snd request <> []) rounds.
Proof.
  induction limit as [limit IH] using lt_wf_ind.
  intros messages result w w' Hrun.
  destruct limit as [| limit]; [done |].
  rewrite run_from_step in Hrun by done. unfold mbind, M_bind in Hrun.
  destruct (superstep_chat_node_any llm execute g thread_id messages w)
    as (m & w1 & Hstep).
  rewrite Hstep in Hrun.
  destruct (tool_calls_of m) as [| call calls'] eqn:Hcalls.
  - rewrite run_from_END in Hrun. injection Hrun as <- <-.
    exists [], m. by repeat split.
  - destruct m as [c | c calls | c nm i]; simpl in Hcalls; try done.
    subst calls.
    destruct limit as [| limit]; [done |].
    rewrite run_from_step in Hrun by done. unfold mbind, M_bind in Hrun.
    destruct (superstep_tools llm execute g thread_id messages c
                (call :: calls') w1) as (w2 & Htools).
    rewrite Htools in Hrun.
    apply IH in Hrun; [| lia].
    destruct Hrun as (rounds & final & -> & Hfinal & Hrounds).
    exists ((c, call :: calls') :: rounds), final.
    split; [| split; [done | by constructor]].
    cbn [map concat round fst snd]. by rewrite <- !app_assoc.
Qed.

(** X4: in the history a finished turn returns, the thread's earlier
    messages and the input are followed by rounds, each an assistant
    message with at least one tool call and then one tool message per call,
    in the order of the calls and carrying their names and identifiers, and
    by one last message that asks for no tool. *)
Theorem stream_answers_every_call llm execute g (input result : list message)
    (thread_id : string) (w w' : world) :
  stream llm execute g input thread_id w = (Ret result, w') ->
  exists (rounds : list (string * list tool_call)) (final : message),
    result
    = (saved_messages g thread_id w ++ input
         ++ concat (map (round execute) rounds) ++ [final])%list
    /\ tool_calls_of final = []
    /\ Forall (fun request => snd request <> []) rounds.
Proof.
  destruct (stream_unfold llm execute g input thread_id w) as (w1 & -> & _).
  intros Hrun. apply run_from_rounds in Hrun.
  destruct Hrun as (rounds & final & -> & Hfinal & Hrounds).
  exists rounds, final. by rewrite <- app_assoc.
Qed.

Lemma stream_answers_every_call_witness :
  exists (rounds : list (string * list tool_call)) (final : message),
    [HumanMessage "add 2 and 3";
     AIMessage "" [ToolCall "calculator" ∅ "call_1"];
     ToolMessage "5" "calculator" "call_1";
     AIMessage "It is 5" []]
    = (saved_messages (Compiled None) "thread-1" (World [] ∅)
         ++ [HumanMessage "add 2 and 3"]
         ++ concat (map (round (fun _ => "5")) rounds) ++ [final])%list
    /\ tool_calls_of final = []
    /\ Forall (fun request => snd request <> []) rounds.
Proof.
  apply (stream_answers_every_call example_llm (fun _ => "5") (Compiled None)
           [HumanMessage "add 2 and 3"] _ "thread-1" (World [] ∅)
           (World [] ∅)).
  reflexivity.
Defined.

(** ** Threads and the checkpoint table *)

Lemma keeps_db_thread {A} (thread_id : string) (m : M A) :
  keeps_db m -> keeps_thread thread_id m.
Proof. intros Hm w. by rewrite Hm. Qed.

Lemma keeps_thread_bind {A B} (thread_id : string) (m : M A) (f : A -> M B) :
  keeps_thread thread_id m -> (forall a, keeps_thread thread_id (f a)) ->
  keeps_thread thread_id (m ≫= f).
Proof.
  intros Hm Hf w. unfold mbind, M_bind. specialize (Hm w).
  destruct (m w) as [[a | e] w']; simpl in *; [| exact Hm].
  by rewrite Hf.
Qed.

Lemma keeps_thread_save g (thread_id other : string)
    (messages : list message) :
  thread_id <> other -> keeps_thread other (save g thread_id messages).
Proof.
  intros Hne w. unfold save. destruct (checkpointer g) as [c |]; [| done].
  by apply put_other_thread.
Qed.

Lemma keeps_thread_superstep llm execute g (thread_id other : string)
    (n : node) (messages : list message) :
  thread_id <> other ->
  keeps_thread other (superstep llm execute g thread_id n messages).
Proof.
  intros Hne. unfold superstep. apply keeps_thread_bind.
  - apply keeps_db_thread. destruct n; simpl;
      auto using keeps_db_chat_node, keeps_db_tool_node with keeps_db.
  - intros update. apply keeps_thread_bind; [by apply keeps_thread_save |].
    intros _. apply keeps_db_thread.
    apply keeps_db_bind; [apply keeps_db_edge |].
    intros next. apply keeps_db_ret.
Qed.

Lemma keeps_thread_run_from llm execute g (thread_id other : string)
    (limit : nat) (n : node) (messages : list message) :
  thread_id <> other ->
  keeps_thread other (run_from llm execute limit g thread_id n messages).
Proof.
  intros Hne. revert n messages.
  induction limit as [| limit IH]; intros n messages.
  - apply keeps_db_thread.
    destruct n; first [apply keeps_db_raise | apply keeps_db_ret].
  - destruct (decide (n = END)) as [-> | Hn].
    { apply keeps_db_thread, keeps_db_ret. }
    rewrite run_from_step by done.
    apply keeps_thread_bind; [by apply keeps_thread_superstep |].
    intros [next messages']. apply IH.
Qed.

Lemma keeps_thread_stream llm execute g (input : list message)
    (thread_id other : string) :
  thread_id <> other ->
  keeps_thread other (stream llm execute g input thread_id).
Proof.
  intros Hne. unfold stream. apply keeps_thread_bind.
  - apply keeps_db_thread. destruct (checkpointer g); by intros w.
  - intros saved. apply keeps_thread_bind; [by apply keeps_thread_save |].
    intros _. apply keeps_thread_bind.
    + apply keeps_db_thread, keeps_db_edge.
    + intros next. by apply keeps_thread_run_from.
Qed.

(** What reading a thread returns depends on that thread's checkpoint
    only. *)
Lemma load_conversation_db g (thread_id : string) (w1 w2 : world) :
  db w1 !! thread_id = db w2 !! thread_id ->
  fst (load_conversation g thread_id w1) = fst (load_conversation g thread_id w2).
Proof.
  intros Hdb. unfold load_conversation, get_state, get_tuple.
  unfold mbind, mret, M_bind, M_ret.
  destruct (checkpointer g); [| done]. simpl. by rewrite Hdb.
Qed.

(** X5: with a checkpointer, reading a thread after a finished turn
    returns exactly the history the turn returned, and that history is the
    thread's earlier history, then the input, then what the turn produced:
    nothing is lost or reordered. *)
Theorem turn_is_read_back llm execute (c : saver)
    (input result : list message) (thread_id : string) (w w' : world) :
  stream llm execute (Compiled (Some c)) input thread_id w = (Ret result, w') ->
  load_conversation (Compiled (Some c)) thread_id w' = (Ret result, w')
  /\ exists produced,
      result
      = (saved_messages (Compiled (Some c)) thread_id w ++ input ++ produced)%list.
Proof. apply load_conversation_roundtrip. Qed.

Lemma turn_is_read_back_witness :
  fst (load_conversation (Compiled (Some (SqliteSaver (Connection "chatbot.db"))))
         "thread-1"
         (snd (stream example_llm (fun _ => "5")
                 (Compiled (Some (SqliteSaver (Connection "chatbot.db"))))
                 [HumanMessage "add 2 and 3"] "thread-1" (World [] ∅))))
  = Ret [HumanMessage "add 2 and 3";
         AIMessage "" [ToolCall "calculator" ∅ "call_1"];
         ToolMessage "5" "calculator" "call_1";
         AIMessage "It is 5" []].
Proof.
  erewrite (proj1 (turn_is_read_back example_llm (fun _ => "5")
                     (SqliteSaver (Connection "chatbot.db"))
                     [HumanMessage "add 2 and 3"] _ "thread-1" (World [] ∅) _
                     _)).
  - reflexivity.
  Unshelve. vm_compute. reflexivity.
Defined.

(** X7: a turn on one thread does not change what any other thread reads
    as, whether the turn returned or not. *)
Theorem turn_leaves_other_threads llm execute g (input : list message)
    (thread_id other : string) (w : world) :
  thread_id <> other ->
  fst (load_conversation g other
         (snd (stream llm execute g input thread_id w)))
  = fst (load_conversation g other w).
Proof.
  intros Hne. apply load_conversation_db.
  by apply keeps_thread_stream.
Qed.

Lemma turn_leaves_other_threads_witness :
  fst (load_conversation (Compiled (Some (SqliteSaver (Connection "chatbot.db"))))
         "thread-2"
         (snd (stream example_llm (fun _ => "5")
                 (Compiled (Some (SqliteSaver (Connection "chatbot.db"))))
                 [HumanMessage "add 2 and 3"] "thread-1"
                 (World [] {["thread-2" := {["messages" := [HumanMessage "hi"]]}]}))))
  = fst (load_conversation
           (Compiled (Some (SqliteSaver (Connection "chatbot.db")))) "thread-2"
           (World [] {["thread-2" := {["messages" := [HumanMessage "hi"]]}]})).
Proof.
  apply (turn_leaves_other_threads example_llm (fun _ => "5")).
  discriminate.
Defined.

(** X8: with a checkpointer, a thread on which a turn has finished has a
    checkpoint, and so has every thread that had one before.  So a listing
    that returns and reports every thread that has a checkpoint makes
    [retrieve_all_threads] return the thread of the turn and every thread
    that had a checkpoint before the turn. *)
Theorem finished_turn_is_listed llm execute
    (list_rows : saver -> M (list string)) (c : saver)
    (input result : list message) (thread_id : string) (w w' w'' : world)
    (rows : list string) :
  stream llm execute (Compiled (Some c)) input thread_id w = (Ret result, w') ->
  list_rows c w' = (Ret rows, w'') ->
  (forall k, is_Some (db w' !! k) -> k ∈ rows) ->
  is_Some (db w' !! thread_id)
  /\ (forall other, is_Some (db w !! other) -> is_Some (db w' !! other))
  /\ exists ids : list string,
      retrieve_all_threads_via list_rows (Some c) w' = (Ret ids, w'')
      /\ thread_id ∈ ids
      /\ forall other, is_Some (db w !! other) -> other ∈ ids.
Proof.
  intros Hrun Hlist Hrows.
  assert (Hthis : is_Some (db w' !! thread_id)).
  { rewrite stream_checkpointed in Hrun.
    apply run_from_checkpointed in Hrun; [| apply lookup_insert_eq].
    destruct Hrun as [-> _]. by eexists. }
  assert (Hothers :
    forall other, is_Some (db w !! other) -> is_Some (db w' !! other)).
  { intros other Hother.
    destruct (decide (thread_id = other)) as [<- | Hne]; [done |].
    pose proof (keeps_thread_stream llm execute (Compiled (Some c)) input
                  thread_id other Hne w) as Hkeep.
    rewrite Hrun in Hkeep. simpl in Hkeep. by rewrite Hkeep. }
  split; [done |]. split; [done |].
  destruct (retrieve_all_threads_via_returns list_rows (Some c) w')
    as (ids & w1 & Hret & _ & Hids).
  rewrite Hlist in Hids. destruct Hids as [-> Hids].
  exists ids. split; [done |]. split.
  - by apply Hids, Hrows.
  - intros other Hother. by apply Hids, Hrows, Hothers.
Qed.

Lemma finished_turn_is_listed_witness :
  exists ids : list string,
    retrieve_all_threads_via list_thread_ids
      (Some (SqliteSaver (Connection "chatbot.db")))
      (snd (stream example_llm (fun _ => "5")
              (Compiled (Some (SqliteSaver (Connection "chatbot.db"))))
              [HumanMessage "add 2 and 3"] "thread-1" (World [] ∅)))
    = (Ret ids,
       snd (stream example_llm (fun _ => "5")
              (Compiled (Some (SqliteSaver (Connection "chatbot.db"))))
              [HumanMessage "add 2 and 3"] "thread-1" (World [] ∅)))
    /\ "thread-1" ∈ ids
    /\ forall other, is_Some ((∅ : gmap string channels) !! other) -> other ∈ ids.
Proof.
  eapply (finished_turn_is_listed example_llm (fun _ => "5") list_thread_ids
            (SqliteSaver (Connection "chatbot.db"))
            [HumanMessage "add 2 and 3"] _ "thread-1" (World [] ∅)).
  - vm_compute. reflexivity.
  - reflexivity.
  - intros k Hk. apply list_elem_of_fmap.
    destruct Hk as [v Hv]. exists (k, v). split; [done |].
    by apply elem_of_map_to_list.
Defined.

(** ** The calculator, case by case *)

Lemma Ret_inj {A} (a b : A) : Ret a = Ret b -> a = b.
Proof. by intros [= ->]. Qed.

Lemma error_is_not_success (text : string) (a b : float) (operation : string)
    (r : float) :
  ({["error" := VStr text]} : dict) <> calculator_success a b operation r.
Proof.
  intros H. apply (f_equal (fun d : dict => d !! "result")) in H.
  vm_compute in H. discriminate H.
Qed.

(** X9: the calculator returns the four-key success payload exactly when
    the operation is one of add, sub, mul, div and, for div, the divisor
    does not compare equal to zero; in every other case it returns one of
    its two fixed error payloads, so the catch-all handler at the end of
    the function is never the one that answers. *)
Theorem calculator_succeeds_iff (a b : float) (operation : string) :
  ((exists result,
       calculator a b operation
       = Ret (calculator_success a b operation result))
   <-> supported operation
       /\ (operation = "div" -> PrimFloat.eqb b 0%float = false))
  /\ ((exists result,
          calculator a b operation
          = Ret (calculator_success a b operation result))
      \/ calculator a b operation
         = Ret {["error" := VStr "Division by zero is not allowed"]}
      \/ calculator a b operation
         = Ret {["error" :=
                   VStr ("Unsupported operation '" ++ operation ++ "'")]}).
Proof.
  assert (Hcases :
    (supported operation
     /\ (operation = "div" -> PrimFloat.eqb b 0%float = false))
    \/ (operation = "div" /\ PrimFloat.eqb b 0%float = true)
    \/ ~ supported operation).
  { unfold supported.
    destruct (decide (operation = "div")) as [-> | Hdiv].
    - destruct (PrimFloat.eqb b 0%float); [right; left | left]; tauto.
    - destruct (decide (operation = "add")); [left; tauto |].
      destruct (decide (operation = "sub")); [left; tauto |].
      destruct (decide (operation = "mul")); [left; tauto |].
      right. right. tauto. }
  destruct Hcases as [[Hop Hb] | [[-> Hb] | Hno]].
  - destruct (calculator_supported a b operation Hop Hb) as (r & Hr & _).
    split; [| left; by exists r].
    split; [done | intros _; by exists r].
  - assert (Hc : calculator a b "div"
                 = Ret {["error" := VStr "Division by zero is not allowed"]}).
    { unfold calculator; simpl. by rewrite Hb. }
    split; [| right; by left].
    split.
    + intros [r Hr]. rewrite Hc in Hr. apply Ret_inj in Hr.
      by apply error_is_not_success in Hr.
    + intros [_ Hb']. rewrite (Hb' eq_refl) in Hb. discriminate Hb.
  - assert (Hc : calculator a b operation
                 = Ret {["error" :=
                           VStr ("Unsupported operation '" ++ operation ++ "'")]}).
    { unfold calculator, supported in *. rewrite !eqb_false by tauto. done. }
    split; [| right; by right].
    split.
    + intros [r Hr]. rewrite Hc in Hr. apply Ret_inj in Hr.
      by apply error_is_not_success in Hr.
    + intros [Hop _]. done.
Qed.

(** ** The thread list of the session *)

Lemma add_thread_step (thread_id : thread_key) (thread_name : str)
    (st : session_state) :
  thread_id ∈ map t_id (chat_threads (add_thread thread_id thread_name st))
  /\ (thread_id ∈ map t_id (chat_threads st) ->
      add_thread thread_id thread_name st = st)
  /\ (thread_id ∉ map t_id (chat_threads st) ->
      chat_threads (add_thread thread_id thread_name st)
      = (chat_threads st ++ [Thread thread_id thread_name])%list)
  /\ (NoDup (map t_id (chat_threads st)) ->
      NoDup (map t_id (chat_threads (add_thread thread_id thread_name st))))
  /\ message_history (add_thread thread_id thread_name st)
     = message_history st
  /\ session_thread_id (add_thread thread_id thread_name st)
     = session_thread_id st.
Proof.
  unfold add_thread.
  destruct (decide (thread_id ∈ map t_id (chat_threads st))) as [Hin | Hout];
    cbn [chat_threads message_history session_thread_id].
  - repeat split; try done.
  - repeat split; try done.
    + rewrite map_app. apply elem_of_app. right. cbn. by left.
    + intros Hnodup. rewrite map_app. apply NoDup_app.
      split; [done |]. split; [| apply NoDup_singleton].
      intros k Hk Hk'. cbn in Hk'. apply list_elem_of_singleton in Hk'.
      by subst k.
Qed.


(** X10: [add_thread] makes sure the thread is listed: a thread that is
    listed already leaves the session as it is, a new one is appended after
    the others; the identifiers stay distinct, and the history and the
    current thread are not touched. *)
Theorem add_thread_lists_once (thread_id : thread_key) (thread_name : str)
    (st : session_state) :
  thread_id ∈ map t_id (chat_threads (add_thread thread_id thread_name st))
  /\ (thread_id ∈ map t_id (chat_threads st) ->
      add_thread thread_id thread_name st = st)
  /\ (thread_id ∉ map t_id (chat_threads st) ->
      chat_threads (add_thread thread_id thread_name st)
      = (chat_threads st ++ [Thread thread_id thread_name])%list)
  /\ (NoDup (map t_id (chat_threads st)) ->
      NoDup (map t_id (chat_threads (add_thread thread_id thread_name st))))
  /\ message_history (add_thread thread_id thread_name st)
     = message_history st
  /\ session_thread_id (add_thread thread_id thread_name st)
     = session_thread_id st.
Proof. apply add_thread_step. Qed.

Lemma add_thread_lists_once_witness :
  chat_threads
    (add_thread (Uuid "a1") (of_string "New Chat")
       (Session [] (Uuid "a1") [Thread (Stored "t0") (of_string "Hello")]))
  = [Thread (Stored "t0") (of_string "Hello");
     Thread (Uuid "a1") (of_string "New Chat")].
Proof.
  apply (proj1 (proj2 (proj2
          (add_thread_lists_once (Uuid "a1") (of_string "New Chat")
             (Session [] (Uuid "a1")
                [Thread (Stored "t0") (of_string "Hello")]))))).
  cbn. intros H. apply list_elem_of_singleton in H. discriminate H.
Defined.

Lemma rename_first_ids (thread_id : thread_key) (new_name : str)
    (threads : list thread) :
  map t_id (rename_first thread_id new_name threads) = map t_id threads.
Proof.
  induction threads as [| t rest IH]; [done |]. cbn [rename_first].
  destruct (decide (t_id t = thread_id)); cbn [map t_id]; by rewrite ?IH.
Qed.

Lemma rename_first_absent (thread_id : thread_key) (new_name : str)
    (threads : list thread) :
  thread_id ∉ map t_id threads ->
  rename_first thread_id new_name threads = threads.
Proof.
  induction threads as [| t rest IH]; [done |]. cbn [rename_first map].
  intros Hout. apply not_elem_of_cons in Hout as [Hne Hout].
  destruct (decide (t_id t = thread_id)); [congruence |]. by rewrite IH.
Qed.

Lemma rename_first_distinct (thread_id : thread_key) (new_name : str)
    (threads : list thread) :
  NoDup (map t_id threads) ->
  rename_first thread_id new_name threads
  = map (fun t =>
           if decide (t_id t = thread_id)
           then Thread thread_id new_name
           else t)
      threads.
Proof.
  induction threads as [| t rest IH]; [done |]. cbn [rename_first map].
  intros Hnodup. apply NoDup_cons in Hnodup as [Hfirst Hrest].
  destruct (decide (t_id t = thread_id)) as [Heq | Hne].
  - rewrite Heq in *. f_equal.
    clear IH Hrest. induction rest as [| t' rest IH]; [done |].
    cbn [map] in *. apply not_elem_of_cons in Hfirst as [Hne Hfirst].
    destruct (decide (t_id t' = thread_id)); [congruence |]. by rewrite <- IH.
  - by rewrite IH.
Qed.

(** X11: [update_thread_name] never adds, drops, reorders or re-identifies
    a thread, and touches nothing else in the session; a thread that is not
    listed leaves the session as it is; when the identifiers are distinct,
    exactly the thread with the identifier takes the new name. *)
Theorem update_thread_name_renames (thread_id : thread_key) (new_name : str)
    (st : session_state) :
  map t_id (chat_threads (update_thread_name thread_id new_name st))
  = map t_id (chat_threads st)
  /\ message_history (update_thread_name thread_id new_name st)
     = message_history st
  /\ session_thread_id (update_thread_name thread_id new_name st)
     = session_thread_id st
  /\ (thread_id ∉ map t_id (chat_threads st) ->
      chat_threads (update_thread_name thread_id new_name st)
      = chat_threads st)
  /\ (NoDup (map t_id (chat_threads st)) ->
      chat_threads (update_thread_name thread_id new_name st)
      = map (fun t =>
               if decide (t_id t = thread_id)
               then Thread thread_id new_name
               else t)
          (chat_threads st)).
Proof.
  unfold update_thread_name.
  cbn [chat_threads message_history session_thread_id].
  split; [apply rename_first_ids |]. split; [done |]. split; [done |].
  split; [apply rename_first_absent | apply rename_first_distinct].
Qed.

Lemma update_thread_name_renames_witness :
  chat_threads
    (update_thread_name (Uuid "a1") (of_string "Hi there")
       (Session [] (Uuid "a1")
          [Thread (Stored "t0") (of_string "Hello");
           Thread (Uuid "a1") (of_string "New Chat")]))
  = [Thread (Stored "t0") (of_string "Hello");
     Thread (Uuid "a1") (of_string "Hi there")].
Proof.
  etrans.
  - apply (proj2 (proj2 (proj2 (proj2
             (update_thread_name_renames (Uuid "a1") (of_string "Hi there")
                (Session [] (Uuid "a1")
                   [Thread (Stored "t0") (of_string "Hello");
                    Thread (Uuid "a1") (of_string "New Chat")])))))).
    cbn. apply NoDup_cons. split.
    + intros H. apply list_elem_of_singleton in H. discriminate H.
    + apply NoDup_singleton.
  - reflexivity.
Defined.

(** Without distinct identifiers only the first thread with the
    identifier is renamed. *)
Example rename_first_stops :
  rename_first (Uuid "a1") (of_string "new")
    [Thread (Uuid "a1") (of_string "one"); Thread (Uuid "a1") (of_string "two")]
  = [Thread (Uuid "a1") (of_string "new"); Thread (Uuid "a1") (of_string "two")].
Proof. reflexivity. Qed.

(** X12: [reset_chat] empties the shown history and makes the new UUID the
    current thread; the threads listed before keep their places and names,
    the new thread is listed after them as [New Chat] unless its identifier
    was listed already, and the identifiers stay distinct. *)
Theorem reset_chat_starts_fresh (hex : string) (st : session_state) :
  message_history (reset_chat hex st) = []
  /\ session_thread_id (reset_chat hex st) = Uuid hex
  /\ Uuid hex ∈ map t_id (chat_threads (reset_chat hex st))
  /\ (Uuid hex ∉ map t_id (chat_threads st) ->
      chat_threads (reset_chat hex st)
      = (chat_threads st ++ [Thread (Uuid hex) (of_string "New Chat")])%list)
  /\ (Uuid hex ∈ map t_id (chat_threads st) ->
      chat_threads (reset_chat hex st) = chat_threads st)
  /\ (NoDup (map t_id (chat_threads st)) ->
      NoDup (map t_id (chat_threads (reset_chat hex st)))).
Proof.
  unfold reset_chat, generate_thread_id.
  cbn [chat_threads message_history session_thread_id].
  pose proof (add_thread_step (Uuid hex) (of_string "New Chat")
                (Session (message_history st) (Uuid hex) (chat_threads st)))
    as Hadd.
  cbn [chat_threads message_history session_thread_id] in Hadd.
  destruct Hadd as (Hin & Hsame & Hnew & Hnodup & _ & Hcur).
  split; [done |]. split; [done |]. split; [done |].
  split; [done |]. split; [| done].
  intros Hlisted. by rewrite (Hsame Hlisted).
Qed.

(** ** Threads found in the store *)


(** Reading a thread over any [get_state]: what was raised goes on to the
    caller, and a snapshot without [messages] reads as the empty list. *)
Lemma load_conversation_via_cases (get_state : string -> M StateSnapshot)
    (thread_id : string) (w : world) :
  load_conversation_via get_state thread_id w
  = match get_state thread_id w with
    | (Ret state, w') => (Ret (default [] (values state !! "messages")), w')
    | (Raise e, w') => (Raise e, w')
    end.
Proof.
  unfold load_conversation_via, mbind, mret, M_bind, M_ret.
  by destruct (get_state thread_id w) as [[state | e] w'].
Qed.

Lemma load_conversation_is_via chatbot (thread_id : string) (w : world) :
  load_conversation chatbot thread_id w
  = load_conversation_via (get_state chatbot) thread_id w.
Proof. reflexivity. Qed.

(** What the loop returns, when it returns: one thread per identifier, in
    order, each with a name that is not empty and not too long. *)
Lemma convert_threads_returns code_points
    (get_state : string -> M StateSnapshot) (ids : list string) :
  forall (threads : list thread) (w w' : world),
    convert_threads code_points get_state ids w = (Ret threads, w') ->
    map t_id threads = map Stored ids
    /\ Forall (fun t => t_name t <> [] /\ length (t_name t) <= 50) threads.
Proof.
  induction ids as [| thread_id rest IH]; intros threads w w' Hrun.
  - injection Hrun as <- <-. by split.
  - cbn [convert_threads] in Hrun. unfold mbind at 1, M_bind in Hrun.
    destruct (load_conversation_via get_state thread_id w)
      as [[messages | e] w1]; [| done].
    unfold mbind, mret, M_bind, M_ret in Hrun.
    destruct (convert_threads code_points get_state rest w1)
      as [[converted | e] w2] eqn:Hrest; [| done].
    injection Hrun as <- <-.
    destruct (IH _ _ _ Hrest) as [Hids Hnames].
    cbn [map t_id]. split; [by rewrite Hids |].
    constructor; [| done]. cbn [t_name].
    split; apply generate_thread_name_shape.
Qed.

(** The loop over readers that return and change nothing. *)
Lemma convert_threads_quiet code_points
    (get_state : string -> M StateSnapshot) (snapshot : string -> StateSnapshot)
    (ids : list string) (w : world) :
  (forall thread_id,
      thread_id ∈ ids -> get_state thread_id w = (Ret (snapshot thread_id), w)) ->
  convert_threads code_points get_state ids w
  = (Ret (map (fun thread_id =>
                 Thread (Stored thread_id)
                   (generate_thread_name
                      (code_points
                         (first_message
                            (default []
                               (values (snapshot thread_id) !! "messages"))))))
            ids), w).
Proof.
  induction ids as [| thread_id rest IH]; intros Hquiet; [done |].
  cbn [convert_threads map]. unfold mbind at 1, M_bind.
  rewrite load_conversation_via_cases, Hquiet by (by left).
  unfold mbind, mret, M_bind, M_ret. rewrite IH; [done |].
  intros k Hk. apply Hquiet. by right.
Qed.

Lemma stored_threads code_points (list_rows : saver -> M (list string))
    (get_state : string -> M StateSnapshot) (checkpointer : option saver)
    (threads : list thread) (w w' : world) :
  get_thread_name_from_existing_threads code_points list_rows get_state
    checkpointer w = (Ret threads, w') ->
  exists (ids : list string) (w1 : world),
    retrieve_all_threads_via list_rows checkpointer w = (Ret ids, w1)
    /\ convert_threads code_points get_state ids w1 = (Ret threads, w')
    /\ NoDup ids
    /\ map t_id threads = map Stored ids
    /\ Forall (fun t => t_name t <> [] /\ length (t_name t) <= 50) threads.
Proof.
  unfold get_thread_name_from_existing_threads. unfold mbind, M_bind.
  destruct (retrieve_all_threads_via_returns list_rows checkpointer w)
    as (ids & w1 & -> & Hnodup & _).
  intros Hrun. exists ids, w1. split; [done |]. split; [done |].
  split; [done |]. by apply (convert_threads_returns _ _ _ _ _ _ Hrun).
Qed.

Lemma stored_ids_distinct (ids : list string) :
  NoDup ids -> NoDup (map Stored ids).
Proof.
  intros Hnodup.
  assert (Hinj : Inj eq eq Stored) by (by intros a b [=]).
  by apply (NoDup_fmap_2 Stored).
Qed.

(** X13: whatever the listing and [get_state] do, when
    [get_thread_name_from_existing_threads] returns, it returns one thread
    per identifier that [retrieve_all_threads] returned, in that order and
    under that identifier, all distinct, each with a name that is not empty
    and at most 50 characters long.  Without a checkpointer, and when the
    listing raises (which is printed), it returns no thread.  When every
    thread is read without raising and without changing anything, each
    name is the name of the first human message of what was read; when
    reading the first thread raises, the function raises the same. *)
Theorem existing_threads_are_named code_points
    (list_rows : saver -> M (list string))
    (get_state : string -> M StateSnapshot) (checkpointer : option saver)
    (w : world) :
  (forall threads w',
      get_thread_name_from_existing_threads code_points list_rows get_state
        checkpointer w = (Ret threads, w') ->
      exists (ids : list string) (w1 : world),
        retrieve_all_threads_via list_rows checkpointer w = (Ret ids, w1)
        /\ map t_id threads = map Stored ids
        /\ NoDup (map t_id threads)
        /\ Forall (fun t => t_name t <> [] /\ length (t_name t) <= 50)
             threads)
  /\ (checkpointer = None ->
      get_thread_name_from_existing_threads code_points list_rows get_state
        checkpointer w = (Ret [], w))
  /\ (forall c e w1,
        checkpointer = Some c ->
        list_rows c w = (Raise e, w1) ->
        get_thread_name_from_existing_threads code_points list_rows get_state
          checkpointer w
        = (Ret [],
           World (stdout w1 ++ ["Error retrieving threads: " ++ exn_str e])
             (db w1)))
  /\ (forall ids w1 snapshot,
        retrieve_all_threads_via list_rows checkpointer w = (Ret ids, w1) ->
        (forall thread_id,
            thread_id ∈ ids ->
            get_state thread_id w1 = (Ret (snapshot thread_id), w1)) ->
        get_thread_name_from_existing_threads code_points list_rows get_state
          checkpointer w
        = (Ret (map (fun thread_id =>
                       Thread (Stored thread_id)
                         (generate_thread_name
                            (code_points
                               (first_message
                                  (default []
                                     (values (snapshot thread_id)
                                        !! "messages"))))))
                  ids), w1))
  /\ (forall thread_id rest w1 e w2,
        retrieve_all_threads_via list_rows checkpointer w
        = (Ret (thread_id :: rest), w1) ->
        get_state thread_id w1 = (Raise e, w2) ->
        get_thread_name_from_existing_threads code_points list_rows get_state
          checkpointer w = (Raise e, w2)).
Proof.
  split; [| split; [| split; [| split]]].
  - intros threads w' Hrun.
    destruct (stored_threads _ _ _ _ _ _ _ Hrun)
      as (ids & w1 & Hret & _ & Hnodup & Hids & Hnames).
    exists ids, w1. split; [done |]. split; [done |]. split; [| done].
    rewrite Hids. by apply stored_ids_distinct.
  - by intros ->.
  - intros c e w1 -> Hlist.
    unfold get_thread_name_from_existing_threads, retrieve_all_threads_via.
    unfold try_exceptM, print, mbind, mret, M_bind, M_ret. by rewrite Hlist.
  - intros ids w1 snapshot Hret Hquiet.
    unfold get_thread_name_from_existing_threads. unfold mbind, M_bind.
    rewrite Hret. by apply convert_threads_quiet.
  - intros thread_id rest w1 e w2 Hret Hstate.
    unfold get_thread_name_from_existing_threads. unfold mbind, M_bind.
    rewrite Hret. cbn [convert_threads]. unfold mbind, M_bind.
    by rewrite load_conversation_via_cases, Hstate.
Qed.

Example existing_threads_named :
  get_thread_name_from_existing_threads of_string
    (fun _ w => (Ret ["t1"; "t1"], w))
    (fun _ w =>
       (Ret {| values :=
                 {["messages" :=
                     [AIMessage "welcome" [];
                      HumanMessage "  what is   2 + 3? "]]} |}, w))
    (Some (SqliteSaver (Connection "chatbot.db"))) (World [] ∅)
  = (Ret [Thread (Stored "t1") (of_string "what is 2 + 3?")], World [] ∅).
Proof. vm_compute. reflexivity. Qed.

(** ** Selecting a thread *)


(** ** The streamed answer and the tool indicator *)

Lemma ai_only_stream_fold (chunks : list message)
    (status_holder : option (list status_event)) :
  ai_only_stream chunks status_holder
  = (omap (fun chunk =>
             match chunk with
             | AIMessage content _ => Some content
             | _ => None
             end)
       chunks,
     fold_left
       (fun holder tool_name =>
          match holder with
          | None => Some [StatusOpen (using_label tool_name)]
          | Some box =>
              Some (box ++ [StatusUpdate (using_label tool_name) "running"
                              true])%list
          end)
       (omap (fun chunk =>
                match chunk with
                | ToolMessage _ tool_name _ => Some tool_name
                | _ => None
                end)
          chunks)
       status_holder).
Proof.
  revert status_holder.
  induction chunks as [| chunk rest IH]; intros status_holder; [done |].
  cbn [ai_only_stream]. rewrite IH. by destruct chunk.
Qed.

Lemma fold_updates (box : list status_event) (names : list string) :
  fold_left
    (fun holder tool_name =>
       match holder with
       | None => Some [StatusOpen (using_label tool_name)]
       | Some box =>
           Some (box ++ [StatusUpdate (using_label tool_name) "running" true])%list
       end)
    names (Some box)
  = Some (box ++ map (fun tool_name =>
                        StatusUpdate (using_label tool_name) "running" true)
                   names)%list.
Proof.
  revert box. induction names as [| n names IH]; intros box.
  - cbn. by rewrite app_nil_r.
  - cbn [fold_left map]. rewrite IH. by rewrite <- app_assoc.
Qed.

(** X15: of the chunks of a turn, [ai_only_stream] yields the contents of
    the assistant chunks, in order, and nothing of the tool or human
    chunks.  The status container is opened once, by the first tool
    message, and every later tool message updates that same container; it
    is closed with [Tool finished] exactly when some chunk was a tool
    message, and a turn without tool messages opens none. *)
Theorem ai_only_stream_shows (chunks : list message) :
  fst (ai_only_stream chunks None)
  = omap (fun chunk =>
            match chunk with
            | AIMessage content _ => Some content
            | _ => None
            end)
      chunks
  /\ finalize (snd (ai_only_stream chunks None))
     = match
         omap (fun chunk =>
                 match chunk with
                 | ToolMessage _ tool_name _ => Some tool_name
                 | _ => None
                 end)
           chunks
       with
       | [] => None
       | first :: later =>
           Some (StatusOpen (using_label first)
                   :: map (fun tool_name =>
                             StatusUpdate (using_label tool_name) "running"
                               true)
                        later
                   ++ [StatusUpdate "✅ Tool finished" "complete" false])%list
       end.
Proof.
  rewrite ai_only_stream_fold. cbn [fst snd]. split; [done |].
  destruct (omap _ chunks) as [| first later]; [done |].
  cbn [fold_left]. by rewrite fold_updates.
Qed.

Example ai_only_stream_one_tool :
  let chunks :=
    [AIMessage "" [ToolCall "calculator" ∅ "call_1"];
     ToolMessage "5" "calculator" "call_1";
     AIMessage "It is " []; AIMessage "5" []] in
  write_stream (fst (ai_only_stream chunks None)) = "It is 5"
  /\ finalize (snd (ai_only_stream chunks None))
     = Some [StatusOpen "🔧 Using `calculator` …";
             StatusUpdate "✅ Tool finished" "complete" false].
Proof. split; reflexivity. Qed.

(** ** Submitting a message *)

Lemma rename_on_first_message_keeps code_points (user_input : string)
    (st : session_state) :
  message_history (rename_on_first_message code_points user_input st)
  = message_history st
  /\ session_thread_id (rename_on_first_message code_points user_input st)
     = session_thread_id st
  /\ map t_id (chat_threads (rename_on_first_message code_points user_input st))
     = map t_id (chat_threads st)
  /\ (message_history st <> [] ->
      rename_on_first_message code_points user_input st = st).
Proof.
  unfold rename_on_first_message.
  destruct (find _ (chat_threads st)) as [t |]; [| done].
  destruct (bool_decide (t_name t = of_string "New Chat")); cbn [andb];
    [| done].
  destruct (bool_decide_reflect (message_history st = [])) as [Hnil | Hne];
    [| done].
  unfold update_thread_name.
  cbn [chat_threads message_history session_thread_id].
  split; [done |]. split; [done |]. split; [apply rename_first_ids | done].
Qed.

Lemma find_listed (k : thread_key) (name : str) (threads : list thread) :
  NoDup (map t_id threads) ->
  Thread k name ∈ threads ->
  find (fun t => bool_decide (t_id t = k)) threads = Some (Thread k name).
Proof.
  induction threads as [| t rest IH]; intros Hnodup Hin; [by inversion Hin |].
  cbn [map] in Hnodup. apply NoDup_cons in Hnodup as [Hfirst Hrest].
  cbn [find]. apply elem_of_cons in Hin as [<- | Hin].
  - cbn [t_id]. by rewrite bool_decide_eq_true_2.
  - rewrite bool_decide_eq_false_2; [by apply IH |].
    intros Heq. apply Hfirst. rewrite Heq.
    change k with (t_id (Thread k name)). by apply list_elem_of_fmap_2.
Qed.

(** The session a submitted message leaves, given what the graph's stream
    did. *)
Lemma submit_session code_points stream_messages chatbot
    (user_input : string) (st : session_state) (w : world) :
  user_input <> "" ->
  let named := rename_on_first_message code_points user_input st in
  match
    stream_messages chatbot [HumanMessage user_input]
      (key_str (session_thread_id st)) w
  with
  | (Ret chunks, w') =>
      submit code_points stream_messages chatbot user_input st w
      = (Ret (finalize (snd (ai_only_stream chunks None))),
         Session
           (message_history st
              ++ [Entry "user" user_input;
                  Entry "assistant"
                    (write_stream (fst (ai_only_stream chunks None)))])%list
           (session_thread_id st) (chat_threads named), w')
  | (Raise e, w') =>
      submit code_points stream_messages chatbot user_input st w
      = (Raise e,
         Session (message_history st ++ [Entry "user" user_input])%list
           (session_thread_id st) (chat_threads named), w')
  end.
Proof.
  intros Hinput named. subst named.
  destruct (rename_on_first_message_keeps code_points user_input st)
    as (Hhist & Hcur & _).
  unfold submit. destruct user_input as [| a rest]; [done |].
  cbv zeta. cbn [session_thread_id message_history chat_threads].
  rewrite Hhist, Hcur.
  destruct (stream_messages _ _ _ _) as [[chunks | e] w']; [| done].
  destruct (ai_only_stream chunks None) as [yielded holder].
  cbn [fst snd]. by rewrite <- app_assoc.
Qed.

(** X16: a submitted message keeps the current thread and the listed
    threads' identifiers and order, and appends to the shown history the
    user's entry and, when the turn came back, one assistant entry holding
    the streamed assistant text; when the turn raised, only the user's
    entry is appended.  No input changes nothing. *)
Theorem submit_appends code_points stream_messages chatbot
    (user_input : string) (st : session_state) (w : world) :
  submit code_points stream_messages chatbot "" st w = (Ret None, st, w)
  /\ (user_input <> "" ->
      session_thread_id
        (submit code_points stream_messages chatbot user_input st w).1.2
      = session_thread_id st
      /\ map t_id
           (chat_threads
              (submit code_points stream_messages chatbot user_input st w).1.2)
         = map t_id (chat_threads st)
      /\ (forall chunks w',
            stream_messages chatbot [HumanMessage user_input]
              (key_str (session_thread_id st)) w = (Ret chunks, w') ->
            message_history
              (submit code_points stream_messages chatbot user_input st w).1.2
            = (message_history st
                 ++ [Entry "user" user_input;
                     Entry "assistant"
                       (String.concat ""
                          (omap (fun chunk =>
                                   match chunk with
                                   | AIMessage content _ => Some content
                                   | _ => None
                                   end)
                             chunks))])%list)
      /\ (forall e w',
            stream_messages chatbot [HumanMessage user_input]
              (key_str (session_thread_id st)) w = (Raise e, w') ->
            (submit code_points stream_messages chatbot user_input st w).1.1
            = Raise e
            /\ message_history
                 (submit code_points stream_messages chatbot user_input st w).1.2
               = (message_history st ++ [Entry "user" user_input])%list)).
Proof.
  split; [done |]. intros Hinput.
  pose proof (submit_session code_points stream_messages chatbot user_input
                st w Hinput) as Hsubmit.
  cbv zeta in Hsubmit.
  destruct (rename_on_first_message_keeps code_points user_input st)
    as (_ & _ & Hids & _).
  destruct (stream_messages _ _ _ _) as [[chunks | e] w1]; rewrite Hsubmit;
    cbn [fst snd session_thread_id chat_threads message_history].
  - split; [done |]. split; [done |]. split; [| by intros ? ? [=]].
    intros chunks' w' [= <- <-]. unfold write_stream.
    by rewrite ai_only_stream_fold.
  - split; [done |]. split; [done |]. split; [by intros ? ? [=] |].
    by intros e' w' [= <- <-].
Qed.

Lemma submit_appends_witness :
  message_history
    (submit of_string
       (fun _ _ _ w =>
          (Ret [AIMessage "Hi" []; AIMessage ", how can I help?" []], w))
       (Compiled None) "hello" (Session [] (Uuid "a1") []) (World [] ∅)).1.2
  = [Entry "user" "hello"; Entry "assistant" "Hi, how can I help?"].
Proof.
  apply (proj1 (proj2 (proj2
          (proj2 (submit_appends of_string
                    (fun _ _ _ w =>
                       (Ret [AIMessage "Hi" []; AIMessage ", how can I help?" []],
                        w))
                    (Compiled None) "hello" (Session [] (Uuid "a1") [])
                    (World [] ∅))
             ltac:(discriminate))))
          [AIMessage "Hi" []; AIMessage ", how can I help?" []] (World [] ∅)).
  reflexivity.
Defined.

Lemma submit_chat_threads code_points stream_messages chatbot
    (user_input : string) (st : session_state) (w : world) :
  user_input <> "" ->
  chat_threads (submit code_points stream_messages chatbot user_input st w).1.2
  = chat_threads (rename_on_first_message code_points user_input st)
  /\ message_history
       (submit code_points stream_messages chatbot user_input st w).1.2
     <> [].
Proof.
  intros Hinput.
  pose proof (submit_session code_points stream_messages chatbot user_input
                st w Hinput) as Hsubmit.
  cbv zeta in Hsubmit.
  destruct (stream_messages _ _ _ _) as [[chunks | e] w1]; rewrite Hsubmit;
    cbn [fst snd chat_threads message_history];
    (split; [done |]); by destruct (message_history st).
Qed.

Lemma find_unlisted (k : thread_key) (threads : list thread) :
  k ∉ map t_id threads ->
  find (fun t => bool_decide (t_id t = k)) threads = None.
Proof.
  induction threads as [| t rest IH]; [done |]. cbn [map find].
  intros Hout. apply not_elem_of_cons in Hout as [Hne Hout].
  rewrite bool_decide_eq_false_2 by congruence. by apply IH.
Qed.

(** X17: a submitted message renames a thread only in one situation: the
    current thread is listed under the placeholder [New Chat] and nothing
    is shown yet; it then takes the name derived from the message.  A
    session that shows some history, a current thread under another name
    and a current thread that is not listed all keep every name.  After any
    submitted message the history is not empty, so the next message, on
    this thread, renames nothing. *)
Theorem first_message_names_thread code_points stream_messages chatbot
    (user_input : string) (st : session_state) (w : world) :
  user_input <> "" ->
  (message_history st <> [] ->
   chat_threads (submit code_points stream_messages chatbot user_input st w).1.2
   = chat_threads st)
  /\ (session_thread_id st ∉ map t_id (chat_threads st) ->
      chat_threads
        (submit code_points stream_messages chatbot user_input st w).1.2
      = chat_threads st)
  /\ (NoDup (map t_id (chat_threads st)) ->
      forall name,
        Thread (session_thread_id st) name ∈ chat_threads st ->
        (name <> of_string "New Chat" ->
         chat_threads
           (submit code_points stream_messages chatbot user_input st w).1.2
         = chat_threads st)
        /\ (name = of_string "New Chat" ->
            message_history st = [] ->
            chat_threads
              (submit code_points stream_messages chatbot user_input st w).1.2
            = map (fun t =>
                     if decide (t_id t = session_thread_id st)
                     then Thread (session_thread_id st)
                            (generate_thread_name (code_points user_input))
                     else t)
                (chat_threads st)))
  /\ (forall next_input w',
        chat_threads
          (submit code_points stream_messages chatbot next_input
             (submit code_points stream_messages chatbot user_input st w).1.2
             w').1.2
        = chat_threads
            (submit code_points stream_messages chatbot user_input st w).1.2).
Proof.
  intros Hinput.
  destruct (submit_chat_threads code_points stream_messages chatbot user_input
              st w Hinput) as [Hthreads Hshown].
  split; [| split; [| split]].
  - intros Hhist. rewrite Hthreads.
    destruct (rename_on_first_message_keeps code_points user_input st)
      as (_ & _ & _ & Hsame). by rewrite Hsame.
  - intros Hout. rewrite Hthreads. unfold rename_on_first_message.
    by rewrite (find_unlisted _ _ Hout).
  - intros Hnodup name Hin. rewrite Hthreads. unfold rename_on_first_message.
    rewrite (find_listed _ name _ Hnodup Hin). cbn [t_name]. split.
    + intros Hname. by rewrite bool_decide_eq_false_2.
    + intros Hname Hhist. rewrite !bool_decide_eq_true_2 by done.
      cbn [andb]. unfold update_thread_name. cbn [chat_threads].
      by apply rename_first_distinct.
  - intros next_input w'.
    destruct (decide (next_input = "")) as [-> | Hnext]; [done |].
    destruct (submit_chat_threads code_points stream_messages chatbot
                next_input
                (submit code_points stream_messages chatbot user_input st w).1.2
                w' Hnext) as [-> _].
    destruct (rename_on_first_message_keeps code_points next_input
                (submit code_points stream_messages chatbot user_input st w).1.2)
      as (_ & _ & _ & Hsame).
    by rewrite Hsame.
Qed.

Lemma first_message_names_thread_witness :
  chat_threads
    (submit of_string (fun _ _ _ w => (Ret [AIMessage "Hi" []], w))
       (Compiled None) "  what is   2 + 3? "
       (Session [] (Uuid "a1") [Thread (Uuid "a1") (of_string "New Chat")])
       (World [] ∅)).1.2
  = [Thread (Uuid "a1") (of_string "what is 2 + 3?")].
Proof.
  assert (Hinput : "  what is   2 + 3? " <> "") by discriminate.
  destruct (first_message_names_thread of_string
              (fun _ _ _ w => (Ret [AIMessage "Hi" []], w))
              (Compiled None) "  what is   2 + 3? "
              (Session [] (Uuid "a1")
                 [Thread (Uuid "a1") (of_string "New Chat")])
              (World [] ∅) Hinput) as (_ & _ & Hnamed & _).
  destruct (Hnamed ltac:(cbn; apply NoDup_singleton) (of_string "New Chat")
              ltac:(cbn; by left)) as [_ Hname].
  rewrite Hname; reflexivity.
Defined.

(** ** Session initialization *)

Lemma stored_is_not_uuid (hex : string) (threads : list thread)
    (ids : list string) :
  map t_id threads = map Stored ids ->
  (Uuid hex ∉ map t_id threads)
  /\ existsb (fun t => bool_decide (t_id t = Uuid hex)) threads = false.
Proof.
  revert ids. induction threads as [| t rest IH]; intros ids Hids.
  { split; [apply not_elem_of_nil | done]. }
  destruct ids as [| thread_id ids]; [done |].
  cbn [map] in Hids. injection Hids as Ht Hrest.
  destruct (IH ids Hrest) as [IHout IHex].
  cbn [map existsb]. rewrite Ht. split.
  - apply not_elem_of_cons. by split.
  - by rewrite bool_decide_eq_false_2.
Qed.

(** X18: whatever the listing and [get_state] do, when the first run of the
    script, on a session with no key set, returns, it shows no history,
    has the new UUID as the current thread, and lists the threads found in
    the store followed by the current thread under [New Chat], all under
    distinct identifiers; when finding the stored threads raises, the run
    raises the same.  A later run, on a session whose keys are set and
    whose current thread is listed, changes nothing and reads nothing. *)
Theorem initialize_lists_current_thread code_points
    (list_rows : saver -> M (list string))
    (get_state : string -> M StateSnapshot) (checkpointer : option saver)
    (hex : string) (w : world) :
  (forall st w',
      initialize code_points list_rows get_state checkpointer hex
        (RawSession None None None) w = (Ret st, w') ->
      exists stored : list thread,
        get_thread_name_from_existing_threads code_points list_rows get_state
          checkpointer w = (Ret stored, w')
        /\ st = Session [] (Uuid hex)
                  (stored ++ [Thread (Uuid hex) (of_string "New Chat")])%list
        /\ NoDup (map t_id (chat_threads st)))
  /\ (forall e w',
        get_thread_name_from_existing_threads code_points list_rows get_state
          checkpointer w = (Raise e, w') ->
        initialize code_points list_rows get_state checkpointer hex
          (RawSession None None None) w = (Raise e, w'))
  /\ (forall history thread_id threads,
        thread_id ∈ map t_id threads ->
        initialize code_points list_rows get_state checkpointer hex
          (RawSession (Some history) (Some thread_id) (Some threads)) w
        = (Ret (Session history thread_id threads), w)).
Proof.
  split; [| split].
  - intros st w'. unfold initialize, generate_thread_id.
    cbn [raw_message_history raw_thread_id raw_chat_threads default
           from_option].
    unfold mbind at 1, M_bind.
    destruct (get_thread_name_from_existing_threads code_points list_rows
                get_state checkpointer w) as [[stored | e] w1] eqn:Hstored;
      [| done].
    destruct (stored_threads _ _ _ _ _ _ _ Hstored)
      as (ids & w0 & _ & _ & Hnodup & Hids & _).
    destruct (stored_is_not_uuid hex stored ids Hids) as [Hout Hex].
    unfold mret, M_ret. rewrite Hex. unfold add_thread.
    cbn [chat_threads message_history session_thread_id].
    rewrite decide_False by done.
    intros [= <- <-]. exists stored. split; [done |]. split; [done |].
    cbn [chat_threads]. rewrite map_app. apply NoDup_app.
    split; [rewrite Hids; by apply stored_ids_distinct |].
    split; [| apply NoDup_singleton].
    intros k Hk Hk'. cbn in Hk'. apply list_elem_of_singleton in Hk'.
    by subst k.
  - intros e w' Hstored. unfold initialize.
    cbn [raw_message_history raw_thread_id raw_chat_threads default
           from_option].
    unfold mbind, M_bind. by rewrite Hstored.
  - intros history thread_id threads Hin.
    unfold initialize.
    cbn [raw_message_history raw_thread_id raw_chat_threads default
           from_option].
    unfold mbind, mret, M_bind, M_ret. unfold id.
    assert (Hex : existsb (fun t => bool_decide (t_id t = thread_id)) threads
                  = true).
    { apply existsb_exists. apply list_elem_of_fmap in Hin as (t & -> & Ht).
      exists t. split; [by apply list_elem_of_In |].
      by apply bool_decide_eq_true_2. }
    by rewrite Hex.
Qed.

Lemma initialize_lists_current_thread_witness :
  initialize of_string list_thread_ids
    (get_state (Compiled (Some (SqliteSaver (Connection "chatbot.db")))))
    (Some (SqliteSaver (Connection "chatbot.db"))) "a1"
    (RawSession (Some [Entry "user" "hello"]) (Some (Uuid "a1"))
       (Some [Thread (Uuid "a1") (of_string "hello")]))
    (World [] ∅)
  = (Ret (Session [Entry "user" "hello"] (Uuid "a1")
            [Thread (Uuid "a1") (of_string "hello")]),
     World [] ∅).
Proof.
  apply (proj2 (proj2 (initialize_lists_current_thread of_string
                         list_thread_ids
                         (get_state
                            (Compiled
                               (Some (SqliteSaver (Connection "chatbot.db")))))
                         (Some (SqliteSaver (Connection "chatbot.db"))) "a1"
                         (World [] ∅)))).
  cbn. by left.
Defined.

Example initialize_first_run :
  initialize of_string (fun _ w => (Ret ["t1"; "t1"], w))
    (fun _ w =>
       (Ret {| values := {["messages" := [HumanMessage "hello there"]]} |}, w))
    (Some (SqliteSaver (Connection "chatbot.db"))) "a1"
    (RawSession None None None) (World [] ∅)
  = (Ret (Session [] (Uuid "a1")
            [Thread (Stored "t1") (of_string "hello there");
             Thread (Uuid "a1") (of_string "New Chat")]),
     World [] ∅).
Proof. vm_compute. reflexivity. Qed.

(** ** The message a stored thread is named after *)

(** X19: a stored thread is named after its first human message, whatever
    stands before or after it; a history without a human message gives the
    empty text, which is named [New Chat] (the empty text having no code
    points). *)
Theorem first_message_is_first_human code_points
    (before after : list message) (content : string) :
  code_points "" = [] ->
  Forall (fun msg => forall c, msg <> HumanMessage c) before ->
  first_message (before ++ HumanMessage content :: after)%list = content
  /\ first_message before = ""
  /\ generate_thread_name (code_points (first_message before))
     = of_string "New Chat".
Proof.
  intros Hempty Hbefore.
  assert (Hnone : first_message before = "").
  { induction Hbefore as [| msg rest Hmsg _ IH]; [done |].
    destruct msg as [c | c calls | c nm i]; [by destruct (Hmsg c) | done..]. }
  split; [| split; [done | by rewrite Hnone, Hempty]].
  induction Hbefore as [| msg rest Hmsg _ IH]; [done |].
  destruct msg as [c | c calls | c nm i]; [by destruct (Hmsg c) | |];
    cbn [app first_message]; apply IH;
    by destruct rest as [| [] ?].
Qed.

Lemma first_message_is_first_human_witness :
  first_message
    ([AIMessage "welcome" []]
       ++ HumanMessage "what is 2 + 3?" :: [HumanMessage "and 4 + 5?"])%list
  = "what is 2 + 3?".
Proof.
  apply (first_message_is_first_human of_string [AIMessage "welcome" []]
           [HumanMessage "and 4 + 5?"] "what is 2 + 3?").
  - reflexivity.
  - repeat constructor. discriminate.
Defined.

